(** * Catalog ingestion script (populate.js): model and verification

    The script pulls pages of volumes from the Google Books API, turns them
    into rows of the [books] table with [transformBookData], and writes the
    accumulated rows with one Supabase insert.

    Conventions of the embedding:
    - a JavaScript string is a [string]; every [ascii] is one UTF-16 code
      unit in the range 0..255, so [String.length] is JavaScript's [.length];
    - an optional JSON field is an [option]; [None] is JavaScript's
      [undefined], and an array field that is present but empty is [Some []];
    - a thrown exception is the [Throw] case of [Completion];
    - console output, network requests and timers are recorded, in order, as
      [Event]s of the run. *)

From Stdlib Require Import String Ascii List Arith Lia Bool.
From stdpp Require Import base option list gmap strings.

Open Scope string_scope.

(** ** JavaScript values and completions *)

Inductive JsError :=
| TypeError (reading : string)
  (* Cannot read properties of undefined (reading '...') *)
| GoogleApiError (status : nat) (message : string)
  (* new Error(`Google API error (${status}): ${message}`) *)
| NetworkError (message : string)
  (* rejection of fetch(url) or of response.json() *)
| LibraryError (message : string).
  (* an Error thrown by a call into a library, with its message *)

Inductive Completion (A : Type) :=
| Normal (a : A)
| Throw (e : JsError).
Arguments Normal {A} a.
Arguments Throw {A} e.

#[global] Instance Completion_ret : MRet Completion := fun A a => Normal a.

#[global] Instance Completion_bind : MBind Completion := fun A B k c =>
  match c with
  | Normal a => k a
  | Throw e => Throw e
  end.

(** [Array.prototype.map] with a callback that may throw: the first
    exception, in index order, aborts the whole map. *)
Fixpoint mapC {A B} (f : A -> Completion B) (l : list A) : Completion (list B) :=
  match l with
  | [] => Normal []
  | x :: rest =>
      y ← f x;
      ys ← mapC f rest;
      Normal (y :: ys)
  end.

(** Truthiness of an optional string: [undefined] and [''] are falsy. *)
Definition truthy (o : option string) : bool :=
  match o with
  | Some s => negb (String.eqb s "")
  | None => false
  end.

(** [x || d] on an optional string. *)
Definition orElse (o : option string) (d : string) : string :=
  match o with
  | Some s => if String.eqb s "" then d else s
  | None => d
  end.

(** [String.prototype.toLowerCase] on code units 0..255: the upper-case
    letters are A-Z and U+00C0..U+00DE without the multiplication sign. *)
Definition toLowerCase_unit (c : ascii) : ascii :=
  let n := nat_of_ascii c in
  if (Nat.leb 65 n && Nat.leb n 90)
     || (Nat.leb 192 n && Nat.leb n 222 && negb (Nat.eqb n 215))
  then ascii_of_nat (n + 32)
  else c.

Fixpoint toLowerCase (s : string) : string :=
  match s with
  | EmptyString => EmptyString
  | String c rest => String (toLowerCase_unit c) (toLowerCase rest)
  end.

(** [s.split(' ')[0]]: the part of [s] before its first space, all of [s]
    when it has none. *)
Fixpoint split_space_0 (s : string) : string :=
  match s with
  | EmptyString => EmptyString
  | String c rest => if Ascii.eqb c " " then EmptyString else String c (split_space_0 rest)
  end.

(** [authors.join(', ')]. *)
Definition join (sep : string) (l : list string) : string := String.concat sep l.

(** ** Data model *)

(** One entry of [volumeInfo.industryIdentifiers]. *)
Record IndustryIdentifier := {
  id_type : string;       (* .type *)
  identifier : string;    (* .identifier *)
}.

Record ImageLinks := {
  thumbnail : option string;
}.

(** [item.volumeInfo] of a volume returned by the API. Every field the
    script reads may be absent; the entries of [industryIdentifiers] carry
    their two strings. *)
Record VolumeInfo := {
  title : option string;
  authors : option (list string);
  industryIdentifiers : option (list IndustryIdentifier);
  description : option string;
  categories : option (list string);
  publishedDate : option string;
  imageLinks : option ImageLinks;
}.

(** A volume resource; its [volumeInfo] object is always there. *)
Record Item := {
  volumeInfo : VolumeInfo;
}.

(** A row of the [books] table. *)
Record Book := {
  b_title : string;
  b_author : string;
  b_isbn : string;
  b_description : string;
  b_genre : string;
  b_publication_date : string;
  b_cover_image : option string;   (* [None] is [null] *)
}.

(** ** transformBookData *)

(** [vol.industryIdentifiers?.find((id) => id.type === ty)] *)
Definition findIdentifier (ty : string) (vol : VolumeInfo) : option IndustryIdentifier :=
  match industryIdentifiers vol with
  | Some ids => List.find (fun id => String.eqb (id_type id) ty) ids
  | None => None
  end.

(** Truthiness of an optional object or array: only [undefined] is falsy
    (an empty array is truthy). *)
Definition defined {A} (o : option A) : bool :=
  match o with
  | Some _ => true
  | None => false
  end.

(** The guard [!vol.title || !vol.authors || (!isbn13 && !isbn10)]:
    [true] when the item is skipped. *)
Definition missingEssential (vol : VolumeInfo) : bool :=
  negb (truthy (title vol))
  || negb (defined (authors vol))
  || (negb (defined (findIdentifier "ISBN_13" vol))
      && negb (defined (findIdentifier "ISBN_10" vol))).

(** The local [publicationDate] of the callback. *)
Definition publicationDate (vol : VolumeInfo) : string :=
  match publishedDate vol with
  | Some d =>
      if truthy (Some d) then
        if Nat.eqb (String.length d) 4 then d ++ "-01-01"
        else if Nat.eqb (String.length d) 7 then d ++ "-01"
        else if Nat.leb 10 (String.length d) then String.substring 0 10 d
        else "1970-01-01"
      else "1970-01-01"
  | None => "1970-01-01"
  end.

(** [isbn13 ? isbn13.identifier : isbn10.identifier] *)
Definition isbnOf (vol : VolumeInfo) : Completion string :=
  match findIdentifier "ISBN_13" vol with
  | Some isbn13 => Normal (identifier isbn13)
  | None =>
      match findIdentifier "ISBN_10" vol with
      | Some isbn10 => Normal (identifier isbn10)
      | None => Throw (TypeError "identifier")
      end
  end.

(** [vol.authors.join(', ')] *)
Definition authorOf (vol : VolumeInfo) : Completion string :=
  match authors vol with
  | Some l => Normal (join ", " l)
  | None => Throw (TypeError "join")
  end.

(** [vol.categories ? vol.categories[0].toLowerCase().split(' ')[0] : 'general']:
    an empty array is truthy and its element 0 is [undefined]. *)
Definition genreOf (vol : VolumeInfo) : Completion string :=
  match categories vol with
  | Some (c :: _) => Normal (split_space_0 (toLowerCase c))
  | Some [] => Throw (TypeError "toLowerCase")
  | None => Normal "general"
  end.

(** [vol.imageLinks?.thumbnail || null] *)
Definition coverImageOf (vol : VolumeInfo) : option string :=
  match imageLinks vol with
  | Some links => if truthy (thumbnail links) then thumbnail links else None
  | None => None
  end.

(** The callback given to [map]: [Normal None] is the [null] of a skipped
    item. The fields of the object literal are evaluated in source order. *)
Definition transformItem (item : Item) : Completion (option Book) :=
  let vol := volumeInfo item in
  if missingEssential vol then Normal None
  else
    author ← authorOf vol;
    isbn ← isbnOf vol;
    genre ← genreOf vol;
    Normal (Some {|
      b_title := default "" (title vol);
      b_author := author;
      b_isbn := isbn;
      b_description := orElse (description vol) "No description available.";
      b_genre := genre;
      b_publication_date := publicationDate vol;
      b_cover_image := coverImageOf vol;
    |}).

(** [.filter(Boolean)] on the mapped array: the [null] entries go. *)
Definition filterBoolean {A} (l : list (option A)) : list A := omap id l.

Definition transformBookData (googleBooks : list Item) : Completion (list Book) :=
  mapped ← mapC transformItem googleBooks;
  Normal (filterBoolean mapped).

(** *** Sample volumes *)

Definition isbn13_entry := {| id_type := "ISBN_13"; identifier := "9780306406157" |}.
Definition isbn10_entry := {| id_type := "ISBN_10"; identifier := "0306406152" |}.

Definition sample_vol : VolumeInfo := {|
  title := Some "Dune";
  authors := Some ["Frank Herbert"; "Brian Herbert"];
  industryIdentifiers := Some [isbn10_entry; isbn13_entry];
  description := None;
  categories := Some ["Science Fiction"];
  publishedDate := Some "2021";
  imageLinks := None;
|}.

Definition sample_item : Item := {| volumeInfo := sample_vol |}.

Definition sample_book : Book := {|
  b_title := "Dune";
  b_author := "Frank Herbert, Brian Herbert";
  b_isbn := "9780306406157";
  b_description := "No description available.";
  b_genre := "science";
  b_publication_date := "2021-01-01";
  b_cover_image := None;
|}.

(** A volume whose [authors] array is present and empty. *)
Definition item_no_author : Item := {| volumeInfo := {|
  title := Some "Beowulf";
  authors := Some [];
  industryIdentifiers := Some [isbn13_entry];
  description := Some "Old English epic.";
  categories := None;
  publishedDate := Some "1975-06";
  imageLinks := None;
|} |}.

Definition book_no_author : Book := {|
  b_title := "Beowulf";
  b_author := "";
  b_isbn := "9780306406157";
  b_description := "Old English epic.";
  b_genre := "general";
  b_publication_date := "1975-06-01";
  b_cover_image := None;
|}.

(** A volume with every essential field whose [categories] array is
    present and empty. *)
Definition item_no_category : Item := {| volumeInfo := {|
  title := Some "Walden";
  authors := Some ["Henry David Thoreau"];
  industryIdentifiers := Some [isbn10_entry];
  description := None;
  categories := Some [];
  publishedDate := Some "1854-08-09T00:00:00Z";
  imageLinks := None;
|} |}.

(** A volume without identifiers. *)
Definition item_no_identifier : Item := {| volumeInfo := {|
  title := Some "Untitled pamphlet";
  authors := Some ["Anonymous"];
  industryIdentifiers := None;
  description := None;
  categories := None;
  publishedDate := None;
  imageLinks := None;
|} |}.

(** ** The script's environment and effects *)

(** What the Google Books endpoint answers to one GET. *)
Inductive Response :=
| RespOk (items : option (list Item))
  (* response.ok; the body's [items] may be absent *)
| RespNotOk (status : nat) (message : string)
  (* !response.ok; the body is { error: { message } } *)
| RespRejected (message : string).
  (* fetch(url) or response.json() rejects *)

(** Second argument of [insert]. *)
Record InsertOptions := {
  onConflict : option string;
}.

(** The [books] table, keyed by its unique column [isbn]. *)
Abbreviation Store := (gmap string Book).

Record World := {
  (* answer of the API to the query [q] at [startIndex] *)
  google : string -> nat -> Response;
  (* the backend's insert: the error it reports, if any, and the table after it *)
  supabase_insert : Store -> string -> list Book -> InsertOptions -> option string * Store;
}.

Inductive ConsoleMsg :=
| MsgMissingKeys                              (* 'Error: Missing API keys in .env file.' *)
| MsgCheckEnv                                 (* 'Please check your .env file in the backend-script folder.' *)
| MsgStarting (total : nat) (term : string)   (* `Starting script to fetch ${total} books for term: "${term}"...` *)
| MsgFetchingPage (page startIndex : nat)     (* `Fetching page ${i + 1} (startIndex: ${startIndex})...` *)
| MsgFetchError (e : JsError)                 (* 'Error fetching from Google Books:', error.message *)
| MsgNoMoreBooks                              (* 'No more books found from Google. Stopping.' *)
| MsgNoBooksFound                             (* 'No books found or an error occurred. Exiting.' *)
| MsgFetched (n : nat)                        (* `...Fetched ${n} valid books. Now inserting into Supabase...` *)
| MsgInsertError (message : string)           (* 'Error inserting data into Supabase:', error.message *)
| MsgSuccess (n : nat)                        (* `Successfully processed ${n} books!` *)
| MsgCheckTable                               (* "Check your 'books' table in the Supabase dashboard." *)
| MsgUncaught (e : JsError).                  (* main().catch(console.error) *)

Inductive Event :=
| ConsoleLog (m : ConsoleMsg)
| ConsoleError (m : ConsoleMsg)
| HttpGet (q : string) (startIndex maxResults : nat) (key : string)
| SetTimeout (ms : nat)
| SupabaseInsert (table : string) (rows : list Book) (opts : InsertOptions).

(** State of a run: the table and the events so far, oldest first. *)
Record Run := {
  db : Store;
  events : list Event;
}.

Definition Script (A : Type) : Type := Run -> Completion A * Run.

#[global] Instance Script_ret : MRet Script := fun A a r => (Normal a, r).

#[global] Instance Script_bind : MBind Script := fun A B k m r =>
  match m r with
  | (Normal a, r') => k a r'
  | (Throw e, r') => (Throw e, r')
  end.

Definition emit (e : Event) : Script unit :=
  fun r => (Normal tt, {| db := db r; events := events r ++ [e] |}).

Definition liftC {A} (c : Completion A) : Script A := fun r => (c, r).

(** [try { body } catch (error) { handler }] *)
Definition tryCatch {A} (body : Script A) (handler : JsError -> Script A) : Script A :=
  fun r =>
    match body r with
    | (Normal a, r') => (Normal a, r')
    | (Throw e, r') => handler e r'
    end.

(** ** fetchGoogleBooks *)

Definition maxResults : nat := 40.

(** [await fetch(url)] followed by the reading of the body. *)
Definition httpGet (w : World) (key query : string) (startIndex : nat) : Script Response :=
  emit (HttpGet query startIndex maxResults key);;
  mret (google w query startIndex).

Definition fetchGoogleBooks (w : World) (googleBooksApiKey query : string)
    (startIndex : nat) : Script (list Item) :=
  tryCatch
    (response ← httpGet w googleBooksApiKey query startIndex;
     match response with
     | RespOk items => mret (default [] items)
     | RespNotOk status message => liftC (Throw (GoogleApiError status message))
     | RespRejected message => liftC (Throw (NetworkError message))
     end)
    (fun error =>
       emit (ConsoleError (MsgFetchError error));;
       mret []).

(** ** main *)

Definition booksPerPage : nat := 40.

(** [Math.ceil(a / b)] on naturals, [b > 0]. *)
Definition ceilDiv (a b : nat) : nat := (a + (b - 1)) / b.

(** The [for] loop of [main], from iteration [i] with [remaining]
    iterations left before [i] reaches [Math.ceil(total / booksPerPage)]. *)
Fixpoint fetchLoop (w : World) (key searchTerm : string) (remaining i : nat)
    (allBooksToInsert : list Book) : Script (list Book) :=
  match remaining with
  | 0 => mret allBooksToInsert
  | S remaining' =>
      let startIndex := i * booksPerPage in
      emit (ConsoleLog (MsgFetchingPage (i + 1) startIndex));;
      googleBooks ← fetchGoogleBooks w key searchTerm startIndex;
      if Nat.eqb (length googleBooks) 0 then
        emit (ConsoleLog MsgNoMoreBooks);;
        mret allBooksToInsert
      else
        booksForSupabase ← liftC (transformBookData googleBooks);
        emit (SetTimeout 1000);;
        fetchLoop w key searchTerm remaining' (S i) (allBooksToInsert ++ booksForSupabase)
  end.

(** [await supabase.from(table).insert(rows, opts)]: returns [error]. *)
Definition supabaseInsert (w : World) (table : string) (rows : list Book)
    (opts : InsertOptions) : Script (option string) :=
  fun r =>
    let '(error, db') := supabase_insert w (db r) table rows opts in
    (Normal error, {| db := db'; events := events r ++ [SupabaseInsert table rows opts] |}).

(** Second half of [main], after the loop: the accumulated rows are
    written with one insert, unless there is none. *)
Definition insertAccumulated (w : World) (allBooksToInsert : list Book) : Script unit :=
  if Nat.eqb (length allBooksToInsert) 0 then
    emit (ConsoleLog MsgNoBooksFound)
  else
    emit (ConsoleLog (MsgFetched (length allBooksToInsert)));;
    error ← supabaseInsert w "books" allBooksToInsert {| onConflict := Some "isbn" |};
    match error with
    | Some message => emit (ConsoleError (MsgInsertError message))
    | None =>
        emit (ConsoleLog (MsgSuccess (length allBooksToInsert)));;
        emit (ConsoleLog MsgCheckTable)
    end.

(** [main] with its two editable constants as parameters. *)
Definition mainWith (w : World) (key searchTerm : string) (totalBooksToFetch : nat)
    : Script unit :=
  emit (ConsoleLog (MsgStarting totalBooksToFetch searchTerm));;
  allBooksToInsert ←
    fetchLoop w key searchTerm (ceilDiv totalBooksToFetch booksPerPage) 0 [];
  insertAccumulated w allBooksToInsert.

Definition main (w : World) (key : string) : Script unit :=
  mainWith w key "best seller" 200.

(** ** Top level of the script *)

(** [process.env] after [dotenv] has loaded the .env file. *)
Abbreviation Env := (gmap string string).

(** The process ends by [process.exit(n)], by running out of work (code
    0), or by an exception that nothing catches: the runtime then prints
    the error and ends the process with code 1. *)
Inductive Exit :=
| ExitCode (n : nat)
| UncaughtException (e : JsError).

Definition exitCode (x : Exit) : nat :=
  match x with
  | ExitCode n => n
  | UncaughtException _ => 1
  end.

(** The script from its first line to the call of [main]. [createClient]
    is the client factory of the Supabase library, which is not in the
    repository: called with the URL and the key, it returns the client or
    throws, as it does for a URL it does not accept. The script calls it
    at its top level, after the check of the keys and outside any [try]. *)
Definition program (createClient : string -> string -> Completion unit)
    (env : Env) (w : World) (r : Run) : Exit * Run :=
  let supabaseUrl := env !! "SUPABASE_URL" in
  let supabaseServiceKey := env !! "SUPABASE_SERVICE_KEY" in
  let googleBooksApiKey := env !! "GOOGLE_BOOKS_API_KEY" in
  if negb (truthy supabaseUrl) || negb (truthy supabaseServiceKey)
     || negb (truthy googleBooksApiKey)
  then
    let '(_, r') := (emit (ConsoleError MsgMissingKeys);;
                     emit (ConsoleLog MsgCheckEnv)) r in
    (ExitCode 1, r')
  else
    match createClient (default "" supabaseUrl) (default "" supabaseServiceKey) with
    | Throw e => (UncaughtException e, r)
    | Normal _ =>
        match main w (default "" googleBooksApiKey) r with
        | (Normal _, r') => (ExitCode 0, r')
        | (Throw e, r') =>
            let '(_, r'') := emit (ConsoleError (MsgUncaught e)) r' in
            (ExitCode 0, r'')
        end
    end.

(** ** The store *)

(** Insertion of one row that skips a row whose [isbn] is already taken. *)
Definition insertRowIgnore (st : Store) (b : Book) : Store :=
  match st !! b_isbn b with
  | Some _ => st
  | None => <[b_isbn b := b]> st
  end.

(** Rows of a batch that do not collide with the table or with an earlier
    row of the same batch. *)
Fixpoint nonConflicting (st : Store) (rows : list Book) : list Book :=
  match rows with
  | [] => []
  | b :: rest =>
      match st !! b_isbn b with
      | Some _ => nonConflicting st rest
      | None => b :: nonConflicting (<[b_isbn b := b]> st) rest
      end
  end.

(** Modelled from the spec: the persistent store (the Supabase client
    library and the database behind it are not in the repository). The
    [books] collection has a unique constraint on the identifier, named
    [isbn]; a write with the "ignore on conflict" directive on [isbn] is a
    conflict-ignore upsert, which "inserts non-conflicting rows and silently
    skips rows whose unique key already exists"; a write without the
    directive that hits the constraint fails, and a failed write leaves the
    whole batch unwritten. *)
Definition conflictIgnoreStore (st : Store) (table : string) (rows : list Book)
    (opts : InsertOptions) : option string * Store :=
  match onConflict opts with
  | Some "isbn" => (None, foldl insertRowIgnore st rows)
  | _ =>
      if Nat.eqb (length (nonConflicting st rows)) (length rows)
      then (None, foldl insertRowIgnore st rows)
      else (Some "duplicate key value violates unique constraint", st)
  end.

(** The insert as the client of the script performs it. The script calls
    [insert], not [upsert]: [onConflict] is an option of [upsert], which
    skips duplicates only when given [ignoreDuplicates], and [insert]
    sends the rows as one plain INSERT whatever its option object holds.
    The table has a unique constraint on [isbn]: a row whose isbn is
    taken, in the table or earlier in the batch, makes the statement fail,
    and a failed statement writes no row. *)
Definition plainInsertStore (st : Store) (table : string) (rows : list Book)
    (opts : InsertOptions) : option string * Store :=
  if Nat.eqb (length (nonConflicting st rows)) (length rows)
  then (None, foldl insertRowIgnore st rows)
  else (Some "duplicate key value violates unique constraint", st).

(** ** Observations on a run *)

(** Offsets of the GET requests, in order. *)
Definition fetchOffsets (evs : list Event) : list nat :=
  omap (fun e => match e with HttpGet _ s _ _ => Some s | _ => None end) evs.

(** The insert requests, in order. *)
Definition insertRequests (evs : list Event) : list (string * list Book * InsertOptions) :=
  omap (fun e => match e with
                 | SupabaseInsert t rows o => Some (t, rows, o)
                 | _ => None
                 end) evs.

(** The items [fetchGoogleBooks] returns for a response. *)
Definition pageItems (resp : Response) : list Item :=
  match resp with
  | RespOk (Some items) => items
  | _ => []
  end.

(** The error [fetchGoogleBooks] catches for a response, if any. *)
Definition fetchFailure (resp : Response) : option JsError :=
  match resp with
  | RespOk _ => None
  | RespNotOk status message => Some (GoogleApiError status message)
  | RespRejected message => Some (NetworkError message)
  end.

Definition emptyRun (st : Store) : Run := {| db := st; events := [] |}.

(** Events of one call of [fetchGoogleBooks]: the request, and the
    report of the error it caught, if any. *)
Definition fetchEvents (w : World) (key q : string) (startIndex : nat) : list Event :=
  HttpGet q startIndex maxResults key ::
  match fetchFailure (google w q startIndex) with
  | Some e => [ConsoleError (MsgFetchError e)]
  | None => []
  end.

(** Events of iteration [i] of the loop up to the test of the page. *)
Definition iterEvents (w : World) (key q : string) (i : nat) : list Event :=
  ConsoleLog (MsgFetchingPage (i + 1) (i * booksPerPage))
  :: fetchEvents w key q (i * booksPerPage).

(** Events of the [k] complete iterations [i], [i+1], ... *)
Fixpoint pagesEvents (w : World) (key q : string) (i k : nat) : list Event :=
  match k with
  | 0 => []
  | S k' => (iterEvents w key q i ++ [SetTimeout 1000]) ++ pagesEvents w key q (S i) k'
  end.

(** Records accumulated from the [k] pages [i], [i+1], ... *)
Fixpoint accumulated (w : World) (q : string) (i k : nat) : Completion (list Book) :=
  match k with
  | 0 => Normal []
  | S k' =>
      bs ← transformBookData (pageItems (google w q (i * booksPerPage)));
      rest ← accumulated w q (S i) k';
      Normal (bs ++ rest)%list
  end.

(** All the rows handed to the store during a run. *)
Definition rowsSubmitted (evs : list Event) : list Book :=
  concat (map (fun req => snd (fst req)) (insertRequests evs)).

(** The run [r'] continues the run [r]. *)
Definition extends (r r' : Run) : Prop :=
  exists rest, events r' = (events r ++ rest)%list.

(** The three credentials read from the environment. *)
Definition required : list string :=
  ["SUPABASE_URL"; "SUPABASE_SERVICE_KEY"; "GOOGLE_BOOKS_API_KEY"].

(** The variable is set, to a non-empty value. *)
Definition usable (env : Env) (k : string) : Prop :=
  exists v, env !! k = Some v /\ v <> "".

(** *** Sample worlds *)

(** One page with a record, then a server error. *)
Definition world_error_on_second_page : World := {|
  google := fun _ startIndex =>
    if Nat.eqb startIndex 0 then RespOk (Some [sample_item])
    else RespNotOk 500 "Backend Error";
  supabase_insert := conflictIgnoreStore;
|}.

(** Every page is full of records; those of the first page all lack an
    identifier. *)
Definition world_sparse : World := {|
  google := fun _ startIndex =>
    if Nat.eqb startIndex 0 then RespOk (Some [item_no_identifier])
    else RespOk (Some [sample_item]);
  supabase_insert := conflictIgnoreStore;
|}.

(** One page with two records, then nothing. *)
Definition world_one_page : World := {|
  google := fun _ startIndex =>
    if Nat.eqb startIndex 0 then RespOk (Some [item_no_identifier; sample_item])
    else RespOk None;
  supabase_insert := conflictIgnoreStore;
|}.

(** One page whose second record has an empty [categories] array, then
    nothing. *)
Definition world_empty_categories : World := {|
  google := fun _ startIndex =>
    if Nat.eqb startIndex 0 then RespOk (Some [sample_item; item_no_category])
    else RespOk None;
  supabase_insert := conflictIgnoreStore;
|}.

(** The source of [world_one_page] with the client's plain insert. *)
Definition world_plain_insert : World := {|
  google := google world_one_page;
  supabase_insert := plainInsertStore;
|}.

Definition stored_book : Book := {|
  b_title := "Dune (first edition)";
  b_author := "Frank Herbert";
  b_isbn := "9780306406157";
  b_description := "Already in the table.";
  b_genre := "fiction";
  b_publication_date := "1965-08-01";
  b_cover_image := None;
|}.

Definition other_book : Book := {|
  b_title := "Walden";
  b_author := "Henry David Thoreau";
  b_isbn := "0306406152";
  b_description := "No description available.";
  b_genre := "general";
  b_publication_date := "1854-08-09";
  b_cover_image := None;
|}.

(** A table that already holds a row with the isbn of [sample_book]. *)
Definition store_with_dune : Store := {[ "9780306406157" := stored_book ]}.

(** An environment whose three variables are set, one of them to the
    empty string. *)
Definition env_blank_url : Env :=
  <["SUPABASE_URL" := ""]>
    (<["SUPABASE_SERVICE_KEY" := "service-key"]>
       (<["GOOGLE_BOOKS_API_KEY" := "api-key"]> ∅)).

Definition env_complete : Env :=
  <["SUPABASE_URL" := "https://project.supabase.co"]>
    (<["SUPABASE_SERVICE_KEY" := "service-key"]>
       (<["GOOGLE_BOOKS_API_KEY" := "api-key"]> ∅)).

(** ** Vocabulary of the statements *)

(** The record has a non-empty title. *)
Definition hasTitle (vol : VolumeInfo) : Prop :=
  exists t, title vol = Some t /\ t <> "".

(** The record has at least one author. *)
Definition hasAuthor (vol : VolumeInfo) : Prop :=
  exists l a, authors vol = Some l /\ a ∈ l.

(** The record has an identifier of the 13-digit or of the 10-digit scheme. *)
Definition hasIdentifier (vol : VolumeInfo) : Prop :=
  exists ids id, industryIdentifiers vol = Some ids /\ id ∈ ids
    /\ (id_type id = "ISBN_13" \/ id_type id = "ISBN_10").

(** What the guard of the callback lets through: a non-empty title, an
    [authors] field (of any length) and an identifier. *)
Definition accepted (vol : VolumeInfo) : Prop :=
  hasTitle vol /\ is_Some (authors vol) /\ hasIdentifier vol.

(** [out] holds one record for each accepted item of [items], in order,
    and nothing for the others. *)
Inductive Kept : list Item -> list Book -> Prop :=
| Kept_nil : Kept [] []
| Kept_skip item items out :
    ~ accepted (volumeInfo item) -> Kept items out -> Kept (item :: items) out
| Kept_keep item items b out :
    accepted (volumeInfo item) -> transformItem item = Normal (Some b) ->
    Kept items out -> Kept (item :: items) (b :: out).

(** A client factory that accepts the URLs of the http and https schemes
    and throws for any other text. *)
Definition createClient_http (supabaseUrl supabaseKey : string) : Completion unit :=
  if String.prefix "http://" supabaseUrl || String.prefix "https://" supabaseUrl
  then Normal tt
  else Throw (LibraryError "Invalid supabaseUrl: Must be a valid HTTP or HTTPS URL.").

(** An environment whose three variables are set and not empty, the URL
    to a text that is no URL. *)
Definition env_malformed_url : Env :=
  <["SUPABASE_URL" := "project.supabase.co"]>
    (<["SUPABASE_SERVICE_KEY" := "service-key"]>
       (<["GOOGLE_BOOKS_API_KEY" := "api-key"]> ∅)).

(** ** Vocabulary for whole runs *)

(** How the loop of [main] ended, after some complete iterations. *)
Inductive LoopEnd :=
| BudgetUsed                     (* [i] reached the bound of the [for] *)
| EmptyPage                      (* [break] on a page without items *)
| NormalizerThrew (e : JsError). (* [transformBookData] threw *)

(** Events of the iteration [i] that ended the loop. *)
Definition endEvents (w : World) (key q : string) (i : nat) (how : LoopEnd) : list Event :=
  match how with
  | BudgetUsed => []
  | EmptyPage => iterEvents w key q i ++ [ConsoleLog MsgNoMoreBooks]
  | NormalizerThrew _ => iterEvents w key q i
  end.

(** All the items of the [n] pages [i], [i+1], ..., in order. *)
Definition fetchedItems (w : World) (q : string) (i n : nat) : list Item :=
  flat_map (fun j => pageItems (google w q (j * booksPerPage))) (seq i n).

(** The option object given to [insert]. *)
Definition insertOptions : InsertOptions := {| onConflict := Some "isbn" |}.

(** A scan of the events of a run: [true] when every GET request but the
    first comes after a timer of at least one second set since the GET
    before it. [waiting] tells that a GET was seen and no timer since. *)
Fixpoint spacedFrom (waiting : bool) (evs : list Event) : bool :=
  match evs with
  | [] => true
  | HttpGet _ _ _ _ :: rest => negb waiting && spacedFrom true rest
  | SetTimeout ms :: rest =>
      if Nat.leb 1000 ms then spacedFrom false rest else spacedFrom waiting rest
  | _ :: rest => spacedFrom waiting rest
  end.

(** Events of the second half of [main] for the accumulated rows [bs],
    the table being [st]. *)
Definition insertEvents (w : World) (st : Store) (bs : list Book) : list Event :=
  match bs with
  | [] => [ConsoleLog MsgNoBooksFound]
  | _ :: _ =>
      [ConsoleLog (MsgFetched (length bs)); SupabaseInsert "books" bs insertOptions] ++
      match fst (supabase_insert w st "books" bs insertOptions) with
      | Some message => [ConsoleError (MsgInsertError message)]
      | None => [ConsoleLog (MsgSuccess (length bs)); ConsoleLog MsgCheckTable]
      end
  end.

(** The table after the second half of [main]. *)
Definition insertedStore (w : World) (st : Store) (bs : list Book) : Store :=
  match bs with
  | [] => st
  | _ :: _ => snd (supabase_insert w st "books" bs insertOptions)
  end.

(** Counts announced by the success messages of a run. *)
Definition successCounts (evs : list Event) : list nat :=
  omap (fun e => match e with ConsoleLog (MsgSuccess n) => Some n | _ => None end) evs.

(** Messages of the insert errors reported by a run. *)
Definition insertErrors (evs : list Event) : list string :=
  omap (fun e => match e with ConsoleError (MsgInsertError m) => Some m | _ => None end) evs.

(** Events of the first half of [main]: the starting message, [n]
    complete iterations of the loop, and the iteration that ended it. *)
Definition loopEvents (w : World) (key q : string) (total n : nat) (how : LoopEnd)
    : list Event :=
  [ConsoleLog (MsgStarting total q)] ++
  pagesEvents w key q 0 n ++ endEvents w key q n how.

(** * The catalog page (src/pages/Books.tsx) and its data hook

    Numbers are integers, as the page and the hook use them: counts, page
    numbers and row offsets. *)

(** [Math.ceil(a / b)] for integers [a] and [b > 0]. *)
Definition ceilDivZ (a b : Z) : Z := (- ((- a) / b))%Z.

(** [const totalPages = Math.ceil(totalCount / 12)] *)
Definition totalPages (totalCount : Z) : Z := ceilDivZ totalCount 12.

(** The number [pageNum] of the button of index [i] in the pagination bar. *)
Definition pageNum (page totalPages i : Z) : Z :=
  if (totalPages <=? 5)%Z then (i + 1)%Z
  else if (page <=? 3)%Z then (i + 1)%Z
  else if (page >=? totalPages - 2)%Z then (totalPages - 4 + i)%Z
  else (page - 2 + i)%Z.

(** The callback of [Array.from] in the pagination bar: [None] is the
    [null] returned for a number out of range, [Some n] the button [n]. *)
Definition pageButton (page totalPages i : Z) : option Z :=
  let n := pageNum page totalPages i in
  if ((n <? 1) || (n >? totalPages))%Z then None else Some n.

(** [Array.from({ length: Math.min(5, totalPages) }, (_, i) => ...)] *)
Definition pageButtons (page totalPages : Z) : list (option Z) :=
  map (pageButton page totalPages) (seqZ 0 (Z.min 5 totalPages)).

(** Target of the Previous button: [Math.max(1, page - 1)]. *)
Definition previousPage (page : Z) : Z := Z.max 1 (page - 1).

(** Target of the Next button: [Math.min(totalPages, page + 1)]. *)
Definition nextPage (page totalPages : Z) : Z := Z.min totalPages (page + 1).

(** [disabled={page === 1}] and [disabled={page === totalPages}] *)
Definition previousDisabled (page : Z) : bool := (page =? 1)%Z.
Definition nextDisabled (page totalPages : Z) : bool := (page =? totalPages)%Z.

(** The two numbers of the line [Showing a-b of n books], shown when
    [totalCount > 0]. *)
Definition showing (page totalCount : Z) : option (Z * Z) :=
  if (totalCount >? 0)%Z
  then Some (((page - 1) * 12 + 1)%Z, Z.min (page * 12) totalCount)
  else None.

(** The rows asked of the table by [useBooks]:
    [query.range((page - 1) * limit, page * limit - 1)], both ends
    included, counted from 0. *)
Definition range (page limit : Z) : Z * Z :=
  (((page - 1) * limit)%Z, (page * limit - 1)%Z).

(** First number of the pagination bar. *)
Definition firstButton (page totalPages : Z) : Z :=
  if (totalPages <=? 5)%Z then 1%Z
  else if (page <=? 3)%Z then 1%Z
  else if (page >=? totalPages - 2)%Z then (totalPages - 4)%Z
  else (page - 2)%Z.

(** A [URLSearchParams]: the pairs of the query string, in order; a name
    may occur several times. *)
Abbreviation URLSearchParams := (list (string * string)).

(** [params.get(name)]: the value of the first pair with that name. *)
Fixpoint paramsGet (name : string) (params : URLSearchParams) : option string :=
  match params with
  | [] => None
  | (k, v) :: rest => if String.eqb k name then Some v else paramsGet name rest
  end.

(** [params.delete(name)]: every pair with that name goes. *)
Definition paramsDelete (name : string) (params : URLSearchParams) : URLSearchParams :=
  List.filter (fun p => negb (String.eqb (fst p) name)) params.

(** [params.set(name, value)]: the first pair with that name takes the
    value and the other pairs with that name go; without such a pair, a
    new one is appended. *)
Fixpoint paramsSet (name value : string) (params : URLSearchParams) : URLSearchParams :=
  match params with
  | [] => [(name, value)]
  | (k, v) :: rest =>
      if String.eqb k name then (name, value) :: paramsDelete name rest
      else (k, v) :: paramsSet name value rest
  end.

(** State of the [Books] component: the query string of the location and
    its three state variables. *)
Record BooksState := {
  searchParams : URLSearchParams;
  selectedGenre : string;
  sortBy : string;
  page : Z;
}.

(** State of the first render for a query string. *)
Definition initialBooksState (params : URLSearchParams) : BooksState := {|
  searchParams := params;
  selectedGenre := orElse (paramsGet "genre" params) "all";
  sortBy := "newest";
  page := 1;
|}.

(** [const searchTerm = searchParams.get('search') || ''] *)
Definition searchTerm (s : BooksState) : string :=
  orElse (paramsGet "search" (searchParams s)) "".

(** The effect that follows a change of [searchParams]. *)
Definition genreEffect (s : BooksState) : BooksState :=
  let genre := paramsGet "genre" (searchParams s) in
  {| searchParams := searchParams s;
     selectedGenre := if truthy genre then default "" genre else "all";
     sortBy := sortBy s;
     page := page s |}.

Definition handleGenreChange (genre : string) (s : BooksState) : BooksState :=
  let newParams := searchParams s in
  let newParams :=
    if String.eqb genre "all" then paramsDelete "genre" newParams
    else paramsSet "genre" genre newParams in
  {| searchParams := newParams;
     selectedGenre := genre;
     sortBy := sortBy s;
     page := 1 |}.

Definition handleSortChange (sort : string) (s : BooksState) : BooksState :=
  {| searchParams := searchParams s;
     selectedGenre := selectedGenre s;
     sortBy := sort;
     page := 1 |}.

(** The state change of [handlePageChange]; the scroll to the top is not
    part of the state. *)
Definition handlePageChange (newPage : Z) (s : BooksState) : BooksState :=
  {| searchParams := searchParams s;
     selectedGenre := selectedGenre s;
     sortBy := sortBy s;
     page := newPage |}.

(** * Properties of the normalizer *)

Example transformItem_sample :
  transformItem sample_item = Normal (Some sample_book).
Proof. reflexivity. Qed.

Section Normalizer.

Implicit Types (vol : VolumeInfo) (item : Item) (b : Book).

Lemma truthy_spec (o : option string) :
  truthy o = true <-> exists t, o = Some t /\ t <> "".
Proof.
  destruct o as [s|]; simpl.
  - destruct (String.eqb_spec s ""); simpl; split.
    + discriminate.
    + intros (t & [= <-] & Hne). contradiction.
    + eauto.
    + reflexivity.
  - split; [discriminate | intros (t & [=] & _)].
Qed.

Lemma defined_spec {A} (o : option A) : defined o = true <-> is_Some o.
Proof.
  destruct o; simpl; split; eauto; try discriminate.
  intros [x [=]].
Qed.

Lemma find_first {A} (f : A -> bool) (l : list A) (x : A) :
  List.find f l = Some x ->
  exists pre post, l = (pre ++ x :: post)%list /\ f x = true /\ (forall y, y ∈ pre -> f y = false).
Proof.
  induction l as [|a l IH]; simpl; [discriminate|].
  destruct (f a) eqn:Hfa.
  - intros [= <-]. exists [], l. repeat split; [assumption|].
    intros y Hy. inversion Hy.
  - intros Hfind. destruct (IH Hfind) as (pre & post & -> & Hx & Hpre).
    exists (a :: pre), post. repeat split; [assumption|].
    intros y Hy. apply elem_of_cons in Hy as [-> | Hy]; auto.
Qed.

Lemma find_absent {A} (f : A -> bool) (l : list A) :
  List.find f l = None <-> forall y, y ∈ l -> f y = false.
Proof.
  induction l as [|a l IH]; simpl.
  - split; [intros _ y Hy; inversion Hy | reflexivity].
  - destruct (f a) eqn:Hfa; split.
    + discriminate.
    + intros H. specialize (H a (list_elem_of_here _ _)). congruence.
    + intros Hn y Hy. apply elem_of_cons in Hy as [-> | Hy]; [assumption|].
      now apply IH.
    + intros H. apply IH. intros y Hy. apply H. now apply list_elem_of_further.
Qed.

Lemma findIdentifier_defined ty vol :
  defined (findIdentifier ty vol) = true <->
  exists ids id, industryIdentifiers vol = Some ids /\ id ∈ ids /\ id_type id = ty.
Proof.
  unfold findIdentifier. destruct (industryIdentifiers vol) as [ids|]; simpl.
  - destruct (List.find _ ids) as [x|] eqn:Hfind; simpl; split.
    + intros _. destruct (find_first _ _ _ Hfind) as (pre & post & -> & Hx & _).
      exists (pre ++ x :: post)%list, x. repeat split.
      * apply elem_of_app. right. apply list_elem_of_here.
      * now apply String.eqb_eq.
    + reflexivity.
    + discriminate.
    + intros (ids' & id & [= <-] & Hin & Hty).
      apply (proj1 (find_absent _ _) Hfind) in Hin.
      apply String.eqb_neq in Hin. contradiction.
  - split; [discriminate | intros (? & ? & [=] & _)].
Qed.

(** The guard is exactly the negation of [accepted]. *)
Lemma missingEssential_false vol :
  missingEssential vol = false <-> accepted vol.
Proof.
  unfold missingEssential, accepted, hasIdentifier.
  rewrite !orb_false_iff, andb_false_iff, !negb_false_iff.
  rewrite truthy_spec, defined_spec, !findIdentifier_defined.
  split.
  - intros [[Ht Ha] Hid]. repeat split; try assumption.
    destruct Hid as [(ids & id & ? & ? & ?) | (ids & id & ? & ? & ?)];
      exists ids, id; auto.
  - intros (Ht & Ha & ids & id & ? & ? & [Hty | Hty]); repeat split;
      try assumption; [left | right]; exists ids, id; auto.
Qed.

(** What a produced record is made of. *)
Lemma transformItem_Some item b :
  transformItem item = Normal (Some b) ->
  let vol := volumeInfo item in
  missingEssential vol = false
  /\ authorOf vol = Normal (b_author b)
  /\ isbnOf vol = Normal (b_isbn b)
  /\ genreOf vol = Normal (b_genre b)
  /\ b_title b = default "" (title vol)
  /\ b_description b = orElse (description vol) "No description available."
  /\ b_publication_date b = publicationDate vol
  /\ b_cover_image b = coverImageOf vol.
Proof.
  unfold transformItem. simpl.
  destruct (missingEssential (volumeInfo item)); [discriminate|].
  destruct (authorOf _) as [a|]; [|discriminate].
  destruct (isbnOf _) as [i|]; [|discriminate].
  destruct (genreOf _) as [g|]; [|discriminate].
  simpl. intros [= <-]. simpl. repeat split.
Qed.

Lemma transformItem_None item :
  transformItem item = Normal None <-> missingEssential (volumeInfo item) = true.
Proof.
  unfold transformItem.
  destruct (missingEssential (volumeInfo item)); [tauto|].
  destruct (authorOf _) as [a|]; [|simpl; split; discriminate].
  destruct (isbnOf _) as [i|]; [|simpl; split; discriminate].
  destruct (genreOf _) as [g|]; simpl; split; discriminate.
Qed.

(** An accepted item whose category list is not an empty array yields a
    record. *)
Lemma transformItem_accepted item :
  accepted (volumeInfo item) -> categories (volumeInfo item) <> Some [] ->
  exists b, transformItem item = Normal (Some b).
Proof.
  intros Hacc Hcat. pose proof Hacc as Hguard.
  apply missingEssential_false in Hguard.
  unfold transformItem. rewrite Hguard.
  destruct Hacc as (_ & [l Hl] & _).
  unfold authorOf. rewrite Hl. simpl.
  unfold isbnOf.
  unfold missingEssential in Hguard.
  rewrite !orb_false_iff, andb_false_iff, !negb_false_iff in Hguard.
  destruct Hguard as [_ Hid].
  destruct (findIdentifier "ISBN_13" _) as [i13|]; simpl.
  - unfold genreOf. destruct (categories _) as [[|c cs]|]; simpl; eauto.
    congruence.
  - destruct (findIdentifier "ISBN_10" _) as [i10|]; simpl.
    + unfold genreOf. destruct (categories _) as [[|c cs]|]; simpl; eauto.
      congruence.
    + destruct Hid; discriminate.
Qed.

Lemma transformBookData_cons item items :
  transformBookData (item :: items) =
    (o ← transformItem item;
     rest ← transformBookData items;
     Normal (match o with Some b => b :: rest | None => rest end)).
Proof.
  unfold transformBookData. simpl.
  destruct (transformItem item) as [o|e]; simpl; [|reflexivity].
  destruct (mapC transformItem items) as [ys|e]; simpl; [|reflexivity].
  destruct o; reflexivity.
Qed.


Lemma not_accepted_missing item :
  ~ accepted (volumeInfo item) -> transformItem item = Normal None.
Proof.
  intros Hna. apply transformItem_None.
  destruct (missingEssential (volumeInfo item)) eqn:Hguard; [reflexivity|].
  apply missingEssential_false in Hguard. contradiction.
Qed.

(** C2 (as amended): a raw record without a non-empty title, without the
    [authors] field, or without an identifier of either scheme is excluded
    from the output, and every other record yields exactly one canonical
    record, in input order; an [authors] array that is present and empty
    does not exclude a record. This holds for every batch in which no
    accepted record carries an empty [categories] array. *)
Theorem transformBookData_keeps_accepted (items : list Item) :
  (forall item, item ∈ items -> accepted (volumeInfo item) ->
                categories (volumeInfo item) <> Some []) ->
  exists out, transformBookData items = Normal out /\ Kept items out.
Proof.
  induction items as [|item items IH]; intros Hcat.
  - exists []. split; [reflexivity | constructor].
  - destruct IH as (out & Hout & Hkept).
    { intros it Hin. apply Hcat. now apply list_elem_of_further. }
    rewrite transformBookData_cons, Hout.
    destruct (missingEssential (volumeInfo item)) eqn:Hguard.
    + assert (Hna : ~ accepted (volumeInfo item)).
      { intros Hacc. apply missingEssential_false in Hacc. congruence. }
      rewrite (not_accepted_missing _ Hna). simpl.
      exists out. split; [reflexivity | now constructor].
    + apply missingEssential_false in Hguard.
      destruct (transformItem_accepted item Hguard) as [b Hb].
      { apply Hcat; [apply list_elem_of_here | assumption]. }
      rewrite Hb. simpl. exists (b :: out). split; [reflexivity|].
      now apply Kept_keep.
Qed.

Lemma transformBookData_keeps_accepted_witness :
  exists out, transformBookData [item_no_identifier; sample_item; item_no_author] = Normal out
    /\ Kept [item_no_identifier; sample_item; item_no_author] out.
Proof.
  apply (transformBookData_keeps_accepted [item_no_identifier; sample_item; item_no_author]).
  intros item Hin _.
  repeat (apply elem_of_cons in Hin as [-> | Hin]; [discriminate|]).
  inversion Hin.
Defined.

(** C2 (as stated) fails: a record whose author list holds no author is
    kept, with an empty author text; and a record with all the minimum
    fields and an empty category list yields no record but an exception. *)
Lemma empty_author_list_not_excluded :
  ~ hasAuthor (volumeInfo item_no_author)
  /\ transformBookData [item_no_author] = Normal [book_no_author]
  /\ (hasTitle (volumeInfo item_no_category)
      /\ hasAuthor (volumeInfo item_no_category)
      /\ hasIdentifier (volumeInfo item_no_category))
  /\ transformBookData [item_no_category] = Throw (TypeError "toLowerCase").
Proof.
  split; [|split; [reflexivity | split; [|reflexivity]]].
  - intros (l & a & [= <-] & Hin). inversion Hin.
  - repeat split.
    + exists "Walden". split; [reflexivity | discriminate].
    + exists ["Henry David Thoreau"], "Henry David Thoreau".
      split; [reflexivity | apply list_elem_of_here].
    + exists [isbn10_entry], isbn10_entry.
      repeat split; [apply list_elem_of_here | now right].
Qed.

(** C3: the publication date of a produced record follows the length of
    the source date: 4 code units, [-01-01] is appended; 7, [-01] is
    appended; 10 or more, the first 10 are kept; any other length, and no
    date at all, give 1970-01-01. *)
Theorem publication_date_rule item b :
  transformItem item = Normal (Some b) ->
  match publishedDate (volumeInfo item) with
  | Some d =>
      (String.length d = 4 -> b_publication_date b = d ++ "-01-01")
      /\ (String.length d = 7 -> b_publication_date b = d ++ "-01")
      /\ (10 <= String.length d -> b_publication_date b = String.substring 0 10 d)
      /\ (String.length d <> 4 -> String.length d <> 7 -> String.length d < 10 ->
          b_publication_date b = "1970-01-01")
  | None => b_publication_date b = "1970-01-01"
  end.
Proof.
  intros Hb. apply transformItem_Some in Hb as (_ & _ & _ & _ & _ & _ & Hdate & _).
  rewrite Hdate. unfold publicationDate.
  destruct (publishedDate (volumeInfo item)) as [d|]; [|reflexivity].
  destruct d as [|c d]; simpl truthy; cbv iota.
  - repeat split; simpl; intros; try reflexivity; try discriminate; lia.
  - set (s := String c d) in *.
    destruct (Nat.eqb_spec (String.length s) 4) as [H4|H4].
    { repeat split; intros; try reflexivity; try lia. }
    destruct (Nat.eqb_spec (String.length s) 7) as [H7|H7].
    { repeat split; intros; try reflexivity; try lia. }
    destruct (Nat.leb_spec 10 (String.length s)) as [H10|H10].
    { repeat split; intros; try reflexivity; try lia. }
    repeat split; intros; try reflexivity; try lia.
Qed.

Lemma publication_date_rule_witness :
  transformItem sample_item = Normal (Some sample_book)
  /\ b_publication_date sample_book = "2021" ++ "-01-01".
Proof.
  split; [reflexivity|].
  apply (publication_date_rule sample_item sample_book); reflexivity.
Defined.

Lemma findIdentifier_first ty vol x :
  findIdentifier ty vol = Some x ->
  exists pre post, industryIdentifiers vol = Some (pre ++ x :: post)%list
    /\ id_type x = ty /\ (forall y, y ∈ pre -> id_type y <> ty).
Proof.
  unfold findIdentifier. destruct (industryIdentifiers vol) as [ids|]; [|discriminate].
  intros Hfind. destruct (find_first _ _ _ Hfind) as (pre & post & -> & Hx & Hpre).
  exists pre, post. repeat split.
  - now apply String.eqb_eq.
  - intros y Hy. apply String.eqb_neq. now apply Hpre.
Qed.

Lemma findIdentifier_None ty vol ids :
  industryIdentifiers vol = Some ids ->
  (findIdentifier ty vol = None <-> forall y, y ∈ ids -> id_type y <> ty).
Proof.
  intros Hids. unfold findIdentifier. rewrite Hids, find_absent.
  split; intros H y Hy; specialize (H y Hy); now apply String.eqb_neq.
Qed.

(** C4: the isbn of a produced record is the value of the first ISBN_13
    entry of the source record whenever it has one, whether or not an
    ISBN_10 entry is there too; with no ISBN_13 entry, it is the value of
    the first ISBN_10 entry. *)
Theorem isbn_prefers_13 item b ids :
  transformItem item = Normal (Some b) ->
  industryIdentifiers (volumeInfo item) = Some ids ->
  ((exists id, id ∈ ids /\ id_type id = "ISBN_13") ->
   exists pre id post, ids = (pre ++ id :: post)%list /\ id_type id = "ISBN_13"
     /\ (forall y, y ∈ pre -> id_type y <> "ISBN_13")
     /\ b_isbn b = identifier id)
  /\ ((forall id, id ∈ ids -> id_type id <> "ISBN_13") ->
      exists pre id post, ids = (pre ++ id :: post)%list /\ id_type id = "ISBN_10"
        /\ (forall y, y ∈ pre -> id_type y <> "ISBN_10")
        /\ b_isbn b = identifier id).
Proof.
  intros Hb Hids.
  apply transformItem_Some in Hb as (_ & _ & Hisbn & _). simpl in Hisbn.
  unfold isbnOf in Hisbn. split.
  - intros (id & Hin & Hty).
    destruct (findIdentifier "ISBN_13" _) as [i13|] eqn:H13.
    + destruct (findIdentifier_first _ _ _ H13) as (pre & post & Heq & Hx & Hpre).
      rewrite Hids in Heq. injection Heq as ->. injection Hisbn as Hisbn.
      exists pre, i13, post. auto.
    + pose proof (proj1 (findIdentifier_None "ISBN_13" _ _ Hids) H13 id Hin).
      contradiction.
  - intros Hno.
    rewrite (proj2 (findIdentifier_None "ISBN_13" _ _ Hids) Hno) in Hisbn.
    destruct (findIdentifier "ISBN_10" _) as [i10|] eqn:H10; [|discriminate].
    destruct (findIdentifier_first _ _ _ H10) as (pre & post & Heq & Hx & Hpre).
    rewrite Hids in Heq. injection Heq as ->. injection Hisbn as Hisbn.
    exists pre, i10, post. auto.
Qed.

Lemma isbn_prefers_13_witness :
  exists pre id post,
    [isbn10_entry; isbn13_entry] = (pre ++ id :: post)%list /\ id_type id = "ISBN_13"
    /\ (forall y, y ∈ pre -> id_type y <> "ISBN_13")
    /\ b_isbn sample_book = identifier id.
Proof.
  apply (isbn_prefers_13 sample_item sample_book [isbn10_entry; isbn13_entry]).
  - reflexivity.
  - reflexivity.
  - exists isbn13_entry. split; [|reflexivity].
    apply list_elem_of_further, list_elem_of_here.
Defined.

(** The part of a string before its first space holds no space and is
    followed, in the string, by a space or by nothing. *)
Lemma split_space_0_spec (s : string) :
  (s = split_space_0 s \/ exists rest, s = split_space_0 s ++ String " " rest)
  /\ ~ In " "%char (list_ascii_of_string (split_space_0 s)).
Proof.
  induction s as [|c s [IHprefix IHnone]]; simpl.
  - split; [now left | tauto].
  - destruct (Ascii.eqb_spec c " ") as [->|Hc]; simpl.
    + split; [right; exists s; reflexivity | tauto].
    + split.
      * destruct IHprefix as [Heq | [rest Heq]].
        -- left. exact (f_equal (String c) Heq).
        -- right. exists rest. exact (f_equal (String c) Heq).
      * intros [Heq | Hin]; [congruence | contradiction].
Qed.

(** The genre of a produced record: from the first category when there is
    one, the default token when the [categories] field is absent. *)
Lemma genre_rule item b :
  transformItem item = Normal (Some b) ->
  match categories (volumeInfo item) with
  | Some (c :: _) => b_genre b = split_space_0 (toLowerCase c)
  | Some [] => False
  | None => b_genre b = "general"
  end.
Proof.
  intros Hb. apply transformItem_Some in Hb as (_ & _ & _ & Hgenre & _).
  simpl in Hgenre. unfold genreOf in Hgenre.
  destruct (categories (volumeInfo item)) as [[|c cs]|]; congruence.
Qed.

(** C5 fails on a record with every essential field and an empty
    [categories] array, that is, with no category: no genre is derived,
    the callback throws, and so does the normalization of any batch that
    holds such a record; the exception leaves [main] uncaught, and nothing
    of the run is written, the valid record of the same page included. *)
Theorem empty_categories_throws :
  accepted (volumeInfo item_no_category)
  /\ categories (volumeInfo item_no_category) = Some []
  /\ transformItem item_no_category = Throw (TypeError "toLowerCase")
  /\ transformBookData [sample_item; item_no_category] = Throw (TypeError "toLowerCase")
  /\ fst (main world_empty_categories "api-key" (emptyRun ∅)) = Throw (TypeError "toLowerCase")
  /\ insertRequests (events (snd (main world_empty_categories "api-key" (emptyRun ∅)))) = [].
Proof.
  split; [|repeat split].
  apply missingEssential_false. reflexivity.
Qed.

Lemma Kept_sublist items out :
  Kept items out ->
  exists sub, sublist sub items
    /\ Forall2 (fun item b => transformItem item = Normal (Some b)) sub out.
Proof.
  induction 1 as [|item items out _ _ (sub & Hsub & Hall)
                  |item items b out _ Hb _ (sub & Hsub & Hall)].
  - exists []. split; constructor.
  - exists sub. split; [now constructor | assumption].
  - exists (item :: sub). split; [now constructor | now constructor].
Qed.

(** C10: when the normalizer returns, its output is no longer than its
    input, and its records are, one for one and in order, the records
    produced from the items of a sub-list of the input: no output record
    comes from several items or from none. *)
Theorem transformBookData_one_to_one (items : list Item) (out : list Book) :
  transformBookData items = Normal out ->
  length out <= length items
  /\ exists sub, sublist sub items
       /\ Forall2 (fun item b => transformItem item = Normal (Some b)) sub out.
Proof.
  revert out. induction items as [|item items IH]; intros out.
  - intros [= <-]. split; [reflexivity|]. exists []. split; constructor.
  - rewrite transformBookData_cons.
    destruct (transformItem item) as [o|e] eqn:Hitem; [|discriminate].
    destruct (transformBookData items) as [rest|e]; [|discriminate].
    destruct (IH rest eq_refl) as (Hlen & sub & Hsub & Hall).
    destruct o as [b|]; simpl; intros [= <-].
    + split; [simpl; lia|]. exists (item :: sub). split; now constructor.
    + split; [simpl; lia|]. exists sub. split; [now constructor | assumption].
Qed.

Lemma transformBookData_one_to_one_witness :
  length [sample_book; book_no_author] <= 3
  /\ exists sub, sublist sub [item_no_identifier; sample_item; item_no_author]
       /\ Forall2 (fun item b => transformItem item = Normal (Some b)) sub
            [sample_book; book_no_author].
Proof.
  apply (transformBookData_one_to_one
           [item_no_identifier; sample_item; item_no_author]
           [sample_book; book_no_author]).
  reflexivity.
Defined.

End Normalizer.

(** * Properties of the orchestrator *)

Section Orchestrator.

Local Open Scope list_scope.

Variables (w : World) (key q : string).

Lemma fetchGoogleBooks_run (startIndex : nat) (r : Run) :
  fetchGoogleBooks w key q startIndex r =
    (Normal (pageItems (google w q startIndex)),
     {| db := db r; events := events r ++ fetchEvents w key q startIndex |}).
Proof.
  unfold fetchGoogleBooks, tryCatch, httpGet, fetchEvents, emit, liftC.
  unfold mbind, mret, Script_bind, Script_ret.
  destruct (google w q startIndex) as [[items|]|status message|message]; simpl;
    rewrite <- ?app_assoc; reflexivity.
Qed.

(** One iteration of the loop. *)
Lemma fetchLoop_S (remaining i : nat) (acc : list Book) (r : Run) :
  fetchLoop w key q (S remaining) i acc r =
    let evs := events r ++ iterEvents w key q i in
    let googleBooks := pageItems (google w q (i * booksPerPage)) in
    if Nat.eqb (length googleBooks) 0 then
      (Normal acc, {| db := db r; events := evs ++ [ConsoleLog MsgNoMoreBooks] |})
    else
      match transformBookData googleBooks with
      | Normal bs =>
          fetchLoop w key q remaining (S i) (acc ++ bs)
            {| db := db r; events := evs ++ [SetTimeout 1000] |}
      | Throw e => (Throw e, {| db := db r; events := evs |})
      end.
Proof.
  cbn [fetchLoop]. unfold mbind at 1. unfold Script_bind at 1.
  cbn [emit]. unfold mbind at 1. unfold Script_bind at 1.
  rewrite fetchGoogleBooks_run. cbn [db events].
  unfold iterEvents. rewrite <- app_assoc. cbn [app].
  cbv zeta.
  destruct (Nat.eqb (length (pageItems (google w q (i * booksPerPage)))) 0).
  - reflexivity.
  - unfold mbind at 1. unfold Script_bind at 1. unfold liftC.
    destruct (transformBookData _) as [bs|e]; reflexivity.
Qed.


Lemma run_eta (r : Run) : {| db := db r; events := events r ++ [] |} = r.
Proof. destruct r. simpl. now rewrite app_nil_r. Qed.

(** [k] complete iterations in a row: every page has items and their
    normalization returns. *)
Lemma fetchLoop_pages (k : nat) :
  forall (remaining i : nat) (acc : list Book) (r : Run) (bs : list Book),
    (forall j, j < k -> pageItems (google w q ((i + j) * booksPerPage)) <> []) ->
    accumulated w q i k = Normal bs ->
    fetchLoop w key q (k + remaining) i acc r =
      fetchLoop w key q remaining (i + k) (acc ++ bs)
        {| db := db r; events := events r ++ pagesEvents w key q i k |}.
Proof.
  induction k as [|k IH]; intros remaining i acc r bs Hpages Hacc.
  - injection Hacc as <-. cbn [pagesEvents Nat.add].
    now rewrite run_eta, app_nil_r, Nat.add_0_r.
  - cbn [Nat.add]. rewrite fetchLoop_S. cbv zeta.
    pose proof (Hpages 0 (Nat.lt_0_succ k)) as Hpage. rewrite Nat.add_0_r in Hpage.
    destruct (pageItems (google w q (i * booksPerPage))) as [|item items] eqn:Hitems;
      [contradiction|].
    cbn [length Nat.eqb].
    cbn [accumulated] in Hacc. rewrite Hitems in Hacc.
    destruct (transformBookData (item :: items)) as [bs1|e]; [|discriminate].
    destruct (accumulated w q (S i) k) as [rest|e] eqn:Hrest; [|discriminate].
    injection Hacc as <-.
    rewrite (IH remaining (S i) (acc ++ bs1) _ rest); [|intros j Hj|assumption].
    + cbn [db events pagesEvents].
      now rewrite <- !app_assoc, Nat.add_succ_r.
    + rewrite Nat.add_succ_l, <- Nat.add_succ_r. apply Hpages. lia.
Qed.

Lemma fetchLoop_0 (i : nat) (acc : list Book) (r : Run) :
  fetchLoop w key q 0 i acc r = (Normal acc, r).
Proof. reflexivity. Qed.

(** What the second half of [main] does with the accumulated rows. *)
Lemma insertAccumulated_run (bs : list Book) (r : Run) :
  insertAccumulated w bs r =
    match bs with
    | [] => (Normal tt, {| db := db r; events := events r ++ [ConsoleLog MsgNoBooksFound] |})
    | _ :: _ =>
        let opts := {| onConflict := Some "isbn" |} in
        let result := supabase_insert w (db r) "books" bs opts in
        (Normal tt,
         {| db := snd result;
            events := events r ++
              [ConsoleLog (MsgFetched (length bs)); SupabaseInsert "books" bs opts] ++
              match fst result with
              | Some message => [ConsoleError (MsgInsertError message)]
              | None => [ConsoleLog (MsgSuccess (length bs)); ConsoleLog MsgCheckTable]
              end |})
    end.
Proof.
  destruct bs as [|b bs]; [reflexivity|].
  unfold insertAccumulated. cbn [length Nat.eqb].
  unfold mbind, Script_bind, emit, supabaseInsert. cbn [db events]. cbv zeta.
  destruct (supabase_insert w (db r) "books" (b :: bs) _) as [[message|] db'];
    cbn [fst snd db events]; rewrite <- !app_assoc; reflexivity.
Qed.

Lemma mainWith_run (total : nat) (r : Run) :
  mainWith w key q total r =
    match fetchLoop w key q (ceilDiv total booksPerPage) 0 []
            {| db := db r; events := events r ++ [ConsoleLog (MsgStarting total q)] |} with
    | (Normal bs, r') => insertAccumulated w bs r'
    | (Throw e, r') => (Throw e, r')
    end.
Proof. reflexivity. Qed.

(** A run whose page [k] is the first without items. *)
Lemma mainWith_stop (total k : nat) (bs : list Book) (r : Run) :
  k < ceilDiv total booksPerPage ->
  (forall j, j < k -> pageItems (google w q (j * booksPerPage)) <> []) ->
  pageItems (google w q (k * booksPerPage)) = [] ->
  accumulated w q 0 k = Normal bs ->
  mainWith w key q total r =
    insertAccumulated w bs
      {| db := db r;
         events := events r ++ [ConsoleLog (MsgStarting total q)] ++
                   pagesEvents w key q 0 k ++ iterEvents w key q k ++
                   [ConsoleLog MsgNoMoreBooks] |}.
Proof.
  intros Hk Hpages Hempty Hacc. rewrite mainWith_run.
  replace (ceilDiv total booksPerPage)
    with (k + S (ceilDiv total booksPerPage - S k)) by lia.
  rewrite (fetchLoop_pages k _ 0 [] _ bs Hpages Hacc).
  rewrite fetchLoop_S. cbv zeta. cbn [Nat.add]. rewrite Hempty.
  cbn [length Nat.eqb db events app]. now rewrite <- !app_assoc.
Qed.

(** A run in which no page is without items. *)
Lemma mainWith_full (total : nat) (bs : list Book) (r : Run) :
  (forall j, j < ceilDiv total booksPerPage ->
             pageItems (google w q (j * booksPerPage)) <> []) ->
  accumulated w q 0 (ceilDiv total booksPerPage) = Normal bs ->
  mainWith w key q total r =
    insertAccumulated w bs
      {| db := db r;
         events := events r ++ [ConsoleLog (MsgStarting total q)] ++
                   pagesEvents w key q 0 (ceilDiv total booksPerPage) |}.
Proof.
  intros Hpages Hacc. rewrite mainWith_run.
  rewrite <- (Nat.add_0_r (ceilDiv total booksPerPage)) at 1.
  rewrite (fetchLoop_pages _ 0 0 [] _ bs Hpages Hacc), fetchLoop_0.
  cbn [db events app]. now rewrite <- !app_assoc.
Qed.


(** ** Observations on the events of the loop *)

Lemma fetchOffsets_app (a b : list Event) :
  fetchOffsets (a ++ b) = fetchOffsets a ++ fetchOffsets b.
Proof. apply omap_app. Qed.

Lemma insertRequests_app (a b : list Event) :
  insertRequests (a ++ b) = insertRequests a ++ insertRequests b.
Proof. apply omap_app. Qed.

Lemma rowsSubmitted_app (a b : list Event) :
  rowsSubmitted (a ++ b) = rowsSubmitted a ++ rowsSubmitted b.
Proof. unfold rowsSubmitted. now rewrite insertRequests_app, map_app, concat_app. Qed.

Lemma fetchOffsets_iterEvents (i : nat) :
  fetchOffsets (iterEvents w key q i) = [i * booksPerPage].
Proof.
  unfold iterEvents, fetchEvents.
  destruct (fetchFailure _); reflexivity.
Qed.

Lemma insertRequests_iterEvents (i : nat) :
  insertRequests (iterEvents w key q i) = [].
Proof.
  unfold iterEvents, fetchEvents.
  destruct (fetchFailure _); reflexivity.
Qed.

Lemma fetchOffsets_pagesEvents (k i : nat) :
  fetchOffsets (pagesEvents w key q i k) = map (fun j => j * booksPerPage) (seq i k).
Proof.
  revert i. induction k as [|k IH]; intros i; [reflexivity|].
  cbn [pagesEvents seq map].
  now rewrite !fetchOffsets_app, fetchOffsets_iterEvents, IH.
Qed.

Lemma insertRequests_pagesEvents (k i : nat) :
  insertRequests (pagesEvents w key q i k) = [].
Proof.
  revert i. induction k as [|k IH]; intros i; [reflexivity|].
  cbn [pagesEvents].
  now rewrite !insertRequests_app, insertRequests_iterEvents, IH.
Qed.

Lemma insertAccumulated_requests (bs : list Book) (r : Run) :
  insertRequests (events (snd (insertAccumulated w bs r))) =
    insertRequests (events r) ++
    match bs with
    | [] => []
    | _ :: _ => [("books", bs, {| onConflict := Some "isbn" |})]
    end.
Proof.
  rewrite insertAccumulated_run. destruct bs as [|b bs]; cbn [snd events].
  - rewrite insertRequests_app. reflexivity.
  - cbv zeta. cbn [snd events]. rewrite insertRequests_app. f_equal.
    destruct (fst (supabase_insert w (db r) "books" (b :: bs) _)); reflexivity.
Qed.

Lemma insertAccumulated_offsets (bs : list Book) (r : Run) :
  fetchOffsets (events (snd (insertAccumulated w bs r))) = fetchOffsets (events r).
Proof.
  rewrite insertAccumulated_run. destruct bs as [|b bs]; cbn [snd events].
  - rewrite fetchOffsets_app. apply app_nil_r.
  - cbv zeta. cbn [snd events]. rewrite fetchOffsets_app.
    destruct (fst (supabase_insert w (db r) "books" (b :: bs) _));
      apply app_nil_r.
Qed.

Lemma insertAccumulated_normal (bs : list Book) (r : Run) :
  fst (insertAccumulated w bs r) = Normal tt.
Proof. rewrite insertAccumulated_run. now destruct bs. Qed.

Lemma rowsSubmitted_requests (reqs : list Event) (bs : list Book) :
  insertRequests reqs =
    match bs with
    | [] => []
    | _ :: _ => [("books", bs, {| onConflict := Some "isbn" |})]
    end ->
  rowsSubmitted reqs = bs /\ length (insertRequests reqs) <= 1.
Proof.
  unfold rowsSubmitted. intros ->. destruct bs; cbn; [auto|].
  now rewrite app_nil_r.
Qed.

Lemma fetchFailure_no_items (resp : Response) (e : JsError) :
  fetchFailure resp = Some e -> pageItems resp = [].
Proof. destruct resp as [items| |]; [discriminate | reflexivity | reflexivity]. Qed.

(** Outcome of a run whose page [k] is the first without items. *)
Lemma stopped_run (total k : nat) (bs : list Book) (st : Store) :
  k < ceilDiv total booksPerPage ->
  (forall j, j < k -> pageItems (google w q (j * booksPerPage)) <> []) ->
  pageItems (google w q (k * booksPerPage)) = [] ->
  accumulated w q 0 k = Normal bs ->
  let run := mainWith w key q total (emptyRun st) in
  fst run = Normal tt
  /\ fetchOffsets (events (snd run)) = map (fun j => j * booksPerPage) (seq 0 (S k))
  /\ insertRequests (events (snd run)) =
       match bs with
       | [] => []
       | _ :: _ => [("books", bs, {| onConflict := Some "isbn" |})]
       end.
Proof.
  intros Hk Hpages Hempty Hacc run. subst run.
  rewrite (mainWith_stop total k bs _ Hk Hpages Hempty Hacc).
  rewrite insertAccumulated_normal, insertAccumulated_offsets, insertAccumulated_requests.
  cbn [events db emptyRun app].
  split; [reflexivity | split].
  - change (ConsoleLog (MsgStarting total q) :: ?l)
      with ([ConsoleLog (MsgStarting total q)] ++ l).
    rewrite !fetchOffsets_app, fetchOffsets_pagesEvents, fetchOffsets_iterEvents.
    cbn [fetchOffsets omap app]. rewrite ?app_nil_r.
    now rewrite seq_S, map_app.
  - change (ConsoleLog (MsgStarting total q) :: ?l)
      with ([ConsoleLog (MsgStarting total q)] ++ l).
    rewrite !insertRequests_app, insertRequests_pagesEvents, insertRequests_iterEvents.
    reflexivity.
Qed.


(** C7: in a run whose page [k] is the first to come back with zero
    records, before the page budget of the target is used up, the fetches
    are those of the offsets 0, 40, ..., 40k and no other, and the run then
    completes by handing the store the records accumulated from the pages
    before [k], in one insert at most (none when nothing was accumulated). *)
Theorem no_fetch_after_empty_page (total k : nat) (bs : list Book) (st : Store) :
  k < ceilDiv total booksPerPage ->
  (forall j, j < k -> pageItems (google w q (j * booksPerPage)) <> []) ->
  pageItems (google w q (k * booksPerPage)) = [] ->
  accumulated w q 0 k = Normal bs ->
  let run := mainWith w key q total (emptyRun st) in
  fst run = Normal tt
  /\ fetchOffsets (events (snd run)) = map (fun j => j * booksPerPage) (seq 0 (S k))
  /\ rowsSubmitted (events (snd run)) = bs
  /\ length (insertRequests (events (snd run))) <= 1.
Proof.
  intros Hk Hpages Hempty Hacc run.
  destruct (stopped_run total k bs st Hk Hpages Hempty Hacc) as (Hnormal & Hoffsets & Hreqs).
  split; [assumption | split; [assumption|]].
  now apply rowsSubmitted_requests.
Qed.

(** C1 (as amended): when the fetch of a page fails, by a non-success
    response or by a transport failure, [fetchGoogleBooks] reports the
    error on the console and returns an empty page; the run treats it as
    the end of the source: it issues no further fetch, completes normally,
    and hands the records accumulated from the earlier pages to the store
    in one insert (no insert is sent when none was accumulated); the table
    after the run is what the backend's insert made of the table before it
    and these records. *)
Theorem fetch_failure_ends_fetching (total k : nat) (e : JsError)
    (bs : list Book) (st : Store) :
  k < ceilDiv total booksPerPage ->
  (forall j, j < k -> pageItems (google w q (j * booksPerPage)) <> []) ->
  fetchFailure (google w q (k * booksPerPage)) = Some e ->
  accumulated w q 0 k = Normal bs ->
  let run := mainWith w key q total (emptyRun st) in
  (forall r, fetchGoogleBooks w key q (k * booksPerPage) r =
     (Normal [],
      {| db := db r;
         events := events r ++ [HttpGet q (k * booksPerPage) maxResults key;
                                ConsoleError (MsgFetchError e)] |}))
  /\ fst run = Normal tt
  /\ In (ConsoleError (MsgFetchError e)) (events (snd run))
  /\ fetchOffsets (events (snd run)) = map (fun j => j * booksPerPage) (seq 0 (S k))
  /\ rowsSubmitted (events (snd run)) = bs
  /\ insertRequests (events (snd run)) =
       match bs with
       | [] => []
       | _ :: _ => [("books", bs, {| onConflict := Some "isbn" |})]
       end
  /\ db (snd run) =
       match bs with
       | [] => st
       | _ :: _ => snd (supabase_insert w st "books" bs {| onConflict := Some "isbn" |})
       end.
Proof.
  intros Hk Hpages Hfail Hacc run.
  pose proof (fetchFailure_no_items _ _ Hfail) as Hempty.
  destruct (stopped_run total k bs st Hk Hpages Hempty Hacc) as (Hnormal & Hoffsets & Hreqs).
  split; [|split; [assumption | split; [|split; [assumption|split; [|split; [assumption|]]]]]].
  - intros r. rewrite fetchGoogleBooks_run, Hempty.
    unfold fetchEvents. now rewrite Hfail.
  - subst run. rewrite (mainWith_stop total k bs _ Hk Hpages Hempty Hacc).
    rewrite insertAccumulated_run.
    assert (Hin : In (ConsoleError (MsgFetchError e))
                     (events (emptyRun st) ++ [ConsoleLog (MsgStarting total q)] ++
                      pagesEvents w key q 0 k ++ iterEvents w key q k ++
                      [ConsoleLog MsgNoMoreBooks])).
    { apply in_or_app. right. apply in_or_app. right. apply in_or_app. right.
      apply in_or_app. left. unfold iterEvents, fetchEvents. rewrite Hfail.
      right. right. now left. }
    destruct bs; cbn [snd events]; apply in_or_app; now left.
  - now apply rowsSubmitted_requests.
  - subst run. rewrite (mainWith_stop total k bs _ Hk Hpages Hempty Hacc).
    rewrite insertAccumulated_run. now destruct bs.
Qed.

(** C8 (as amended): the number of fetches is set by the page budget
    [Math.ceil(target / 40)], not by the count of accumulated records. In
    a run in which every page of the budget comes back non-empty, each
    page is followed by a fetch at the offset advanced by the page size
    until the budget is used up, and fetching then stops, whatever the
    number of records accumulated; these are handed to the store. *)
Theorem fetches_follow_page_budget (total : nat) (bs : list Book) (st : Store) :
  (forall j, j < ceilDiv total booksPerPage ->
             pageItems (google w q (j * booksPerPage)) <> []) ->
  accumulated w q 0 (ceilDiv total booksPerPage) = Normal bs ->
  let run := mainWith w key q total (emptyRun st) in
  fst run = Normal tt
  /\ fetchOffsets (events (snd run)) =
       map (fun j => j * booksPerPage) (seq 0 (ceilDiv total booksPerPage))
  /\ rowsSubmitted (events (snd run)) = bs.
Proof.
  intros Hpages Hacc run. subst run.
  rewrite (mainWith_full total bs _ Hpages Hacc).
  rewrite insertAccumulated_normal, insertAccumulated_offsets.
  split; [reflexivity | split].
  - cbn [events db emptyRun app].
    change (ConsoleLog (MsgStarting total q) :: ?l)
      with ([ConsoleLog (MsgStarting total q)] ++ l).
    now rewrite fetchOffsets_app, fetchOffsets_pagesEvents.
  - apply rowsSubmitted_requests. rewrite insertAccumulated_requests.
    cbn [events db emptyRun app].
    change (ConsoleLog (MsgStarting total q) :: ?l)
      with ([ConsoleLog (MsgStarting total q)] ++ l).
    now rewrite insertRequests_app, insertRequests_pagesEvents.
Qed.

End Orchestrator.

Lemma no_fetch_after_empty_page_witness :
  let run := mainWith world_one_page "api-key" "best seller" 200 (emptyRun ∅) in
  fst run = Normal tt
  /\ fetchOffsets (events (snd run)) = [0; 40]
  /\ rowsSubmitted (events (snd run)) = [sample_book]
  /\ length (insertRequests (events (snd run))) <= 1.
Proof.
  apply (no_fetch_after_empty_page world_one_page "api-key" "best seller"
           200 1 [sample_book] ∅).
  - vm_compute. lia.
  - intros j Hj. assert (j = 0) as -> by lia. discriminate.
  - reflexivity.
  - reflexivity.
Defined.

(** C1 (as stated) fails: the second fetch gets a server error, yet the
    run completes normally, and the record of the first page is written to
    the store. *)
Lemma fetch_failure_still_persists :
  let run := main world_error_on_second_page "api-key" (emptyRun ∅) in
  fetchFailure (google world_error_on_second_page "best seller" 40)
    = Some (GoogleApiError 500 "Backend Error")
  /\ fst run = Normal tt
  /\ insertRequests (events (snd run))
       = [("books", [sample_book], {| onConflict := Some "isbn" |})]
  /\ db (snd run) !! "9780306406157" = Some sample_book.
Proof. vm_compute. repeat split. Qed.

Lemma fetch_failure_ends_fetching_witness :
  let run := mainWith world_error_on_second_page "api-key" "best seller" 200 (emptyRun ∅) in
  (forall r, fetchGoogleBooks world_error_on_second_page "api-key" "best seller" 40 r =
     (Normal [],
      {| db := db r;
         events := (events r ++ [HttpGet "best seller" 40 maxResults "api-key";
                      ConsoleError (MsgFetchError (GoogleApiError 500 "Backend Error"))])%list |}))
  /\ fst run = Normal tt
  /\ In (ConsoleError (MsgFetchError (GoogleApiError 500 "Backend Error"))) (events (snd run))
  /\ fetchOffsets (events (snd run)) = [0; 40]
  /\ rowsSubmitted (events (snd run)) = [sample_book]
  /\ insertRequests (events (snd run)) =
       [("books", [sample_book], {| onConflict := Some "isbn" |})]
  /\ db (snd run) =
       snd (supabase_insert world_error_on_second_page ∅ "books" [sample_book]
              {| onConflict := Some "isbn" |}).
Proof.
  apply (fetch_failure_ends_fetching world_error_on_second_page "api-key" "best seller"
           200 1 (GoogleApiError 500 "Backend Error") [sample_book] ∅).
  - vm_compute. lia.
  - intros j Hj. assert (j = 0) as -> by lia. discriminate.
  - reflexivity.
  - reflexivity.
Defined.

(** C8 (as stated) fails: with a target of 40, the first page is not
    empty and leaves the accumulated count at 0, below the target; the next
    page would not be empty either; yet no second fetch is issued. *)
Lemma no_second_fetch_below_target :
  let run := mainWith world_sparse "api-key" "best seller" 40 (emptyRun ∅) in
  pageItems (google world_sparse "best seller" 0) <> []
  /\ pageItems (google world_sparse "best seller" 40) <> []
  /\ accumulated world_sparse "best seller" 0 1 = Normal []
  /\ length (@nil Book) < 40
  /\ fetchOffsets (events (snd run)) = [0].
Proof. repeat split; try discriminate. vm_compute. lia. Qed.

Lemma fetches_follow_page_budget_witness :
  let run := mainWith world_sparse "api-key" "best seller" 80 (emptyRun ∅) in
  fst run = Normal tt
  /\ fetchOffsets (events (snd run)) = [0; 40]
  /\ rowsSubmitted (events (snd run)) = [sample_book].
Proof.
  apply (fetches_follow_page_budget world_sparse "api-key" "best seller"
           80 [sample_book] ∅).
  - intros j Hj. change (ceilDiv 80 booksPerPage) with 2 in Hj.
    assert (j = 0 \/ j = 1) as [-> | ->] by lia; discriminate.
  - reflexivity.
Defined.

(** * Properties of the write to the store *)

Section StoreWrite.

Local Open Scope list_scope.

Implicit Types (st : Store) (rows : list Book).

Lemma nonConflicting_length rows : forall st,
  length (nonConflicting st rows) <= length rows.
Proof.
  induction rows as [|b0 rows IH]; intros st; cbn [nonConflicting length]; [lia|].
  destruct (st !! b_isbn b0).
  - specialize (IH st). lia.
  - cbn [length]. specialize (IH (<[b_isbn b0 := b0]> st)). lia.
Qed.

Lemma nonConflicting_short rows : forall st b,
  b ∈ rows -> is_Some (st !! b_isbn b) ->
  length (nonConflicting st rows) < length rows.
Proof.
  induction rows as [|b0 rows IH]; intros st b Hin Htaken; [inversion Hin|].
  cbn [nonConflicting length].
  destruct (st !! b_isbn b0) eqn:Hb0.
  - pose proof (nonConflicting_length rows st). lia.
  - cbn [length]. apply elem_of_cons in Hin as [-> | Hin].
    + rewrite Hb0 in Htaken. destruct Htaken as [x [=]].
    + assert (Hstill : is_Some (<[b_isbn b0 := b0]> st !! b_isbn b)).
      { destruct (decide (b_isbn b0 = b_isbn b)) as [Heq | Hne].
        - rewrite Heq, lookup_insert_eq. eauto.
        - now rewrite lookup_insert_ne. }
      pose proof (IH _ b Hin Hstill). lia.
Qed.

(** The plain insert fails on every batch that holds a row whose isbn is
    in the table, and then writes none of the rows of the batch. *)
Lemma plainInsertStore_duplicate st (table : string) rows (opts : InsertOptions) (b : Book) :
  b ∈ rows -> is_Some (st !! b_isbn b) ->
  plainInsertStore st table rows opts =
    (Some "duplicate key value violates unique constraint", st).
Proof.
  intros Hin Htaken. unfold plainInsertStore.
  pose proof (nonConflicting_short rows st b Hin Htaken) as Hshort.
  destruct (Nat.eqb_spec (length (nonConflicting st rows)) (length rows)); [lia | reflexivity].
Qed.

End StoreWrite.

(** C6 fails on a batch that holds a row whose isbn is in the table, as
    the batch of a second run of the script is. The script gives
    [onConflict: 'isbn'] to [insert], which takes no such directive: the
    rows go as a plain INSERT, the duplicate makes it fail, no row of the
    batch is written, the row that did not collide included, and the run
    prints the error of the insert and no success. *)
Theorem duplicate_isbn_aborts_insert :
  let run := insertAccumulated world_plain_insert [sample_book; other_book]
               (emptyRun store_with_dune) in
  let first := main world_plain_insert "api-key" (emptyRun ∅) in
  let second := main world_plain_insert "api-key" (emptyRun (db (snd first))) in
  events (snd run) =
    [ConsoleLog (MsgFetched 2);
     SupabaseInsert "books" [sample_book; other_book] {| onConflict := Some "isbn" |};
     ConsoleError (MsgInsertError "duplicate key value violates unique constraint")]
  /\ db (snd run) = store_with_dune
  /\ db (snd run) !! "0306406152" = None
  /\ successCounts (events (snd first)) = [1]
  /\ db (snd first) !! "9780306406157" = Some sample_book
  /\ insertRequests (events (snd second)) =
       [("books", [sample_book], {| onConflict := Some "isbn" |})]
  /\ insertErrors (events (snd second)) =
       ["duplicate key value violates unique constraint"]
  /\ successCounts (events (snd second)) = []
  /\ db (snd second) = db (snd first).
Proof. vm_compute. repeat split. Qed.

(** * Properties of the top level *)

(** Case analysis on [Hk : k ∈ required], running [tac] on each of the
    three variables. *)
Ltac each_required Hk tac :=
  unfold required in Hk;
  repeat (apply elem_of_cons in Hk as [-> | Hk]; [tac|]);
  inversion Hk.

Section TopLevel.

Local Open Scope list_scope.

Variables (w : World) (createClient : string -> string -> Completion unit).

Lemma extends_refl (r : Run) : extends r r.
Proof. exists []. now rewrite app_nil_r. Qed.

Lemma extends_trans (r1 r2 r3 : Run) : extends r1 r2 -> extends r2 r3 -> extends r1 r3.
Proof.
  intros [a Ha] [b Hb]. exists (a ++ b). now rewrite Hb, Ha, app_assoc.
Qed.

Lemma extends_app (r r' : Run) (evs : list Event) :
  events r' = events r ++ evs -> extends r r'.
Proof. intros H. now exists evs. Qed.

Lemma fetchLoop_extends (key q : string) (remaining : nat) :
  forall i acc r, extends r (snd (fetchLoop w key q remaining i acc r)).
Proof.
  induction remaining as [|remaining IH]; intros i acc r.
  - apply extends_refl.
  - rewrite fetchLoop_S. cbv zeta.
    destruct (Nat.eqb _ 0).
    + apply (extends_app _ _ (iterEvents w key q i ++ [ConsoleLog MsgNoMoreBooks])).
      cbn [snd events]. now rewrite app_assoc.
    + destruct (transformBookData _) as [bs|e].
      * eapply extends_trans; [|apply IH].
        apply (extends_app _ _ (iterEvents w key q i ++ [SetTimeout 1000])).
        cbn [events]. now rewrite app_assoc.
      * now apply (extends_app _ _ (iterEvents w key q i)).
Qed.

Lemma insertAccumulated_extends (bs : list Book) (r : Run) :
  extends r (snd (insertAccumulated w bs r)).
Proof.
  rewrite insertAccumulated_run. destruct bs; eexists; reflexivity.
Qed.

(** A run with a positive page budget starts with the first fetch. *)
Lemma mainWith_begins (key q : string) (total : nat) (r : Run) :
  0 < ceilDiv total booksPerPage ->
  exists rest,
    events (snd (mainWith w key q total r)) =
      events r ++ ConsoleLog (MsgStarting total q) :: ConsoleLog (MsgFetchingPage 1 0)
                  :: HttpGet q 0 maxResults key :: rest.
Proof.
  intros Hbudget.
  set (r1 := {| db := db r;
                events := events r ++ [ConsoleLog (MsgStarting total q);
                                       ConsoleLog (MsgFetchingPage 1 0);
                                       HttpGet q 0 maxResults key] |}).
  assert (Hext : extends r1 (snd (mainWith w key q total r))).
  { rewrite mainWith_run.
    destruct (ceilDiv total booksPerPage) as [|n]; [lia|].
    set (r0 := {| db := db r; events := events r ++ [ConsoleLog (MsgStarting total q)] |}).
    assert (Hfirst : extends r1 (snd (fetchLoop w key q (S n) 0 [] r0))).
    { rewrite fetchLoop_S. cbv zeta.
      assert (Hiter : forall tail,
                 extends r1 {| db := db r0; events := (events r0 ++ iterEvents w key q 0) ++ tail |}).
      { intros tail. unfold iterEvents, fetchEvents. eexists. cbn [events r0 r1].
        rewrite <- !app_assoc. cbn [app Nat.add Nat.mul]. reflexivity. }
      destruct (Nat.eqb _ 0); [apply Hiter|].
      destruct (transformBookData _) as [bs|e].
      - eapply extends_trans; [apply (Hiter [SetTimeout 1000]) | apply fetchLoop_extends].
      - specialize (Hiter []). now rewrite app_nil_r in Hiter. }
    destruct (fetchLoop w key q (S n) 0 [] r0) as [[bs|e] r']; cbn [snd] in *.
    - eapply extends_trans; [exact Hfirst | apply insertAccumulated_extends].
    - exact Hfirst. }
  destruct Hext as [rest Hrest]. exists rest. rewrite Hrest. cbn [events r1].
  now rewrite <- app_assoc.
Qed.

Lemma truthy_usable (env : Env) (k : string) :
  truthy (env !! k) = true <-> usable env k.
Proof. apply truthy_spec. Qed.

(** C9 (as amended): when one of the three credentials is absent from the
    environment, or set to the empty string, the program prints the
    message about the missing keys and exits with code 1 with no request
    sent. When the three are set to non-empty values, it creates the
    Supabase client from the URL and the service key; if the creation
    throws, nothing catches the exception and the process ends there, with
    code 1 and no request sent; otherwise it runs [main], which starts with
    the first fetch, made with the API key of the environment. *)
Theorem credentials_gate (env : Env) (r : Run) :
  ((exists k, k ∈ required /\ ~ usable env k) ->
   program createClient env w r =
     (ExitCode 1,
      {| db := db r;
         events := events r ++ [ConsoleError MsgMissingKeys; ConsoleLog MsgCheckEnv] |}))
  /\ ((forall k, k ∈ required -> usable env k) ->
      exists u s g,
        env !! "SUPABASE_URL" = Some u
        /\ env !! "SUPABASE_SERVICE_KEY" = Some s
        /\ env !! "GOOGLE_BOOKS_API_KEY" = Some g
        /\ match createClient u s with
           | Throw e =>
               program createClient env w r = (UncaughtException e, r)
               /\ exitCode (fst (program createClient env w r)) = 1
           | Normal _ =>
               exists rest,
                 fst (program createClient env w r) = ExitCode 0
                 /\ events (snd (program createClient env w r)) =
                      events r ++ ConsoleLog (MsgStarting 200 "best seller")
                               :: ConsoleLog (MsgFetchingPage 1 0)
                               :: HttpGet "best seller" 0 maxResults g :: rest
           end).
Proof.
  split.
  - intros (k & Hk & Hno).
    assert (Hfalsy : truthy (env !! k) = false).
    { destruct (truthy (env !! k)) eqn:Ht; [|reflexivity].
      apply truthy_usable in Ht. contradiction. }
    assert (Hguard : negb (truthy (env !! "SUPABASE_URL"))
                     || negb (truthy (env !! "SUPABASE_SERVICE_KEY"))
                     || negb (truthy (env !! "GOOGLE_BOOKS_API_KEY")) = true).
    { each_required Hk ltac:(rewrite Hfalsy; cbn; now rewrite ?orb_true_r). }
    unfold program. rewrite Hguard.
    unfold mbind, Script_bind, emit. cbn [db events]. now rewrite <- app_assoc.
  - intros Hall.
    assert (Hu : usable env "SUPABASE_URL").
    { apply Hall. unfold required. set_solver. }
    assert (Hs : usable env "SUPABASE_SERVICE_KEY").
    { apply Hall. unfold required. set_solver. }
    assert (Hg : usable env "GOOGLE_BOOKS_API_KEY").
    { apply Hall. unfold required. set_solver. }
    pose proof (proj2 (truthy_usable _ _) Hu) as Hut.
    pose proof (proj2 (truthy_usable _ _) Hs) as Hst.
    pose proof (proj2 (truthy_usable _ _) Hg) as Hgt.
    destruct Hu as (u & Hu & _). destruct Hs as (s & Hs & _). destruct Hg as (g & Hg & _).
    exists u, s, g. split; [assumption | split; [assumption | split; [assumption|]]].
    unfold program. rewrite Hut, Hst, Hgt. cbn [negb orb]. rewrite Hu, Hs, Hg.
    cbn [from_option id].
    destruct (createClient u s) as [client|e]; [|now split].
    destruct (mainWith_begins g "best seller" 200 r) as [rest Hrest].
    { vm_compute. lia. }
    unfold main.
    destruct (mainWith w g "best seller" 200 r) as [[x|e] r'] eqn:Hmain; cbn [snd] in Hrest.
    + exists rest. split; [reflexivity | exact Hrest].
    + exists (rest ++ [ConsoleError (MsgUncaught e)]).
      split; [reflexivity|]. cbn [emit snd events].
      rewrite Hrest. now rewrite <- app_assoc.
Qed.

End TopLevel.

Lemma credentials_gate_witness :
  exists u s g,
    env_complete !! "SUPABASE_URL" = Some u
    /\ env_complete !! "SUPABASE_SERVICE_KEY" = Some s
    /\ env_complete !! "GOOGLE_BOOKS_API_KEY" = Some g
    /\ match createClient_http u s with
       | Throw e =>
           program createClient_http env_complete world_one_page (emptyRun ∅)
             = (UncaughtException e, emptyRun ∅)
           /\ exitCode (fst (program createClient_http env_complete world_one_page
                               (emptyRun ∅))) = 1
       | Normal _ =>
           exists rest,
             fst (program createClient_http env_complete world_one_page (emptyRun ∅))
               = ExitCode 0
             /\ events (snd (program createClient_http env_complete world_one_page
                               (emptyRun ∅))) =
                  ConsoleLog (MsgStarting 200 "best seller")
                    :: ConsoleLog (MsgFetchingPage 1 0)
                    :: HttpGet "best seller" 0 maxResults g :: rest
       end.
Proof.
  apply (proj2 (credentials_gate world_one_page createClient_http env_complete (emptyRun ∅))).
  intros k Hk.
  each_required Hk ltac:(eexists; split; [vm_compute; reflexivity | discriminate]).
Defined.

(** C9 (as stated) fails, twice. The three credentials are present in the
    environment, one of them as the empty string, and the program exits
    with code 1 without running the pipeline. And the three credentials
    are present and not empty, the URL being no URL: a client factory that
    refuses it throws, and the program ends with code 1 without running
    the pipeline. *)
Lemma blank_credential_stops_program :
  (forall k, k ∈ required -> is_Some (env_blank_url !! k))
  /\ program createClient_http env_blank_url world_one_page (emptyRun ∅) =
       (ExitCode 1,
        {| db := ∅; events := [ConsoleError MsgMissingKeys; ConsoleLog MsgCheckEnv] |})
  /\ (forall k, k ∈ required -> usable env_malformed_url k)
  /\ program createClient_http env_malformed_url world_one_page (emptyRun ∅) =
       (UncaughtException
          (LibraryError "Invalid supabaseUrl: Must be a valid HTTP or HTTPS URL."),
        emptyRun ∅).
Proof.
  split; [|split; [vm_compute; reflexivity | split; [|vm_compute; reflexivity]]].
  - intros k Hk. each_required Hk ltac:(vm_compute; eauto).
  - intros k Hk.
    each_required Hk ltac:(eexists; split; [vm_compute; reflexivity | discriminate]).
Qed.

(** * Further properties of the normalizer *)

Section NormalizerMore.

Local Open Scope list_scope.

Lemma transformBookData_nil : transformBookData [] = Normal [].
Proof. reflexivity. Qed.

Lemma transformBookData_app_eq (a b : list Item) :
  transformBookData (a ++ b) =
    (x ← transformBookData a; y ← transformBookData b; Normal (x ++ y)).
Proof.
  induction a as [|item a IH].
  - cbn [app]. rewrite transformBookData_nil. cbn.
    now destruct (transformBookData b).
  - cbn [app]. rewrite !transformBookData_cons, IH.
    destruct (transformItem item) as [o|e]; [|reflexivity]. cbn.
    destruct (transformBookData a) as [x|e]; [|reflexivity]. cbn.
    destruct (transformBookData b) as [y|e]; [|reflexivity]. cbn.
    now destruct o.
Qed.

(** X1: normalizing two batches one after the other and joining the
    results is the same as normalizing the joined batch: when both
    normalizations return, the joined batch gives the first output
    followed by the second, and when one of them throws, so does the
    joined batch, with the exception of the first that throws. *)
Theorem transformBookData_app (a b : list Item) :
  match transformBookData a, transformBookData b with
  | Normal x, Normal y => transformBookData (a ++ b) = Normal (x ++ y)
  | Normal _, Throw e => transformBookData (a ++ b) = Throw e
  | Throw e, _ => transformBookData (a ++ b) = Throw e
  end.
Proof.
  rewrite transformBookData_app_eq.
  destruct (transformBookData a) as [x|e]; [|reflexivity].
  now destruct (transformBookData b).
Qed.


Lemma length_append (s1 s2 : string) :
  String.length (s1 +:+ s2) = String.length s1 + String.length s2.
Proof.
  induction s1 as [|c s1 IH]; [reflexivity|].
  change (String c s1 +:+ s2) with (String c (s1 +:+ s2)).
  cbn [String.length]. now rewrite IH.
Qed.

Lemma length_substring_0 (n : nat) : forall s : string,
  n <= String.length s -> String.length (String.substring 0 n s) = n.
Proof.
  induction n as [|n IH]; intros s Hn.
  - now destruct s.
  - destruct s as [|c s]; cbn [String.length] in Hn; [lia|].
    cbn [String.substring String.length]. rewrite IH; lia.
Qed.

(** X2: the publication date of every record the normalizer produces has
    exactly 10 code units, the length of a full calendar date, whatever the
    precision of the source date. *)
Theorem publication_date_has_10_units (item : Item) (b : Book) :
  transformItem item = Normal (Some b) ->
  String.length (b_publication_date b) = 10.
Proof.
  intros Hb. apply transformItem_Some in Hb as (_ & _ & _ & _ & _ & _ & Hdate & _).
  rewrite Hdate. unfold publicationDate.
  destruct (publishedDate (volumeInfo item)) as [d|]; [|reflexivity].
  destruct (truthy (Some d)); [|reflexivity].
  destruct (Nat.eqb_spec (String.length d) 4) as [H4|H4].
  { rewrite length_append, H4. reflexivity. }
  destruct (Nat.eqb_spec (String.length d) 7) as [H7|H7].
  { rewrite length_append, H7. reflexivity. }
  destruct (Nat.leb_spec 10 (String.length d)) as [H10|H10]; [|reflexivity].
  now apply length_substring_0.
Qed.

Lemma publication_date_has_10_units_witness :
  String.length (b_publication_date book_no_author) = 10.
Proof.
  apply (publication_date_has_10_units item_no_author book_no_author).
  reflexivity.
Defined.

Lemma orElse_nonempty (o : option string) (d : string) :
  d <> "" -> orElse o d <> "".
Proof.
  intros Hd. unfold orElse. destruct o as [s|]; [|assumption].
  now destruct (String.eqb_spec s "").
Qed.

(** X3: no record the normalizer produces has an empty text where the
    script supplies a default or demands a value: its title is the
    non-empty title of the source, its description is not empty, and its
    cover image is either null or a non-empty URL. *)
Theorem produced_record_has_no_blank_field (item : Item) (b : Book) :
  transformItem item = Normal (Some b) ->
  title (volumeInfo item) = Some (b_title b)
  /\ b_title b <> ""
  /\ b_description b <> ""
  /\ b_cover_image b <> Some "".
Proof.
  intros Hb.
  apply transformItem_Some in Hb as (Hguard & _ & _ & _ & Htitle & Hdesc & _ & Hcover).
  apply missingEssential_false in Hguard as ((t & Ht & Hne) & _).
  cbn zeta in *. rewrite Ht in Htitle. cbn in Htitle. subst t.
  split; [assumption | split; [assumption | split]].
  - rewrite Hdesc. now apply orElse_nonempty.
  - rewrite Hcover. unfold coverImageOf.
    destruct (imageLinks (volumeInfo item)) as [links|]; [|discriminate].
    destruct (thumbnail links) as [u|]; cbn; [|discriminate].
    destruct (String.eqb_spec u ""); cbn; congruence.
Qed.

Lemma produced_record_has_no_blank_field_witness :
  title (volumeInfo sample_item) = Some (b_title sample_book)
  /\ b_title sample_book <> ""
  /\ b_description sample_book <> ""
  /\ b_cover_image sample_book <> Some "".
Proof.
  apply (produced_record_has_no_blank_field sample_item sample_book).
  reflexivity.
Defined.

Lemma toLowerCase_unit_idempotent (c : ascii) :
  toLowerCase_unit (toLowerCase_unit c) = toLowerCase_unit c.
Proof. destruct c as [[] [] [] [] [] [] [] []]; reflexivity. Qed.

Lemma toLowerCase_idempotent (s : string) :
  toLowerCase (toLowerCase s) = toLowerCase s.
Proof.
  induction s as [|c s IH]; [reflexivity|].
  cbn [toLowerCase]. now rewrite toLowerCase_unit_idempotent, IH.
Qed.

(** Lower-casing and cutting at the first space commute on a string that
    is already in lower case. *)
Lemma toLowerCase_split_space_0 (s : string) :
  toLowerCase s = s -> toLowerCase (split_space_0 s) = split_space_0 s.
Proof.
  induction s as [|c s IH]; [reflexivity|].
  cbn [toLowerCase split_space_0]. intros [= Hc Hs].
  destruct (Ascii.eqb c " "); [reflexivity|].
  cbn [toLowerCase]. now rewrite Hc, IH.
Qed.

(** X4: the genre of every record the normalizer produces is a single
    token in lower case: it holds no space and lower-casing leaves it
    unchanged. *)
Theorem genre_is_lowercase_token (item : Item) (b : Book) :
  transformItem item = Normal (Some b) ->
  ~ In " "%char (list_ascii_of_string (b_genre b))
  /\ toLowerCase (b_genre b) = b_genre b.
Proof.
  intros Hb. apply genre_rule in Hb.
  destruct (categories (volumeInfo item)) as [[|c cs]|]; [contradiction | |].
  - rewrite Hb. split.
    + apply split_space_0_spec.
    + apply toLowerCase_split_space_0, toLowerCase_idempotent.
  - rewrite Hb. split; [|reflexivity].
    cbn. intros H. repeat (destruct H as [H|H]; [discriminate|]). exact H.
Qed.

Lemma genre_is_lowercase_token_witness :
  ~ In " "%char (list_ascii_of_string (b_genre sample_book))
  /\ toLowerCase (b_genre sample_book) = b_genre sample_book.
Proof.
  apply (genre_is_lowercase_token sample_item sample_book).
  reflexivity.
Defined.

End NormalizerMore.

(** * Properties of every run *)

Section Runs.

Local Open Scope list_scope.

Variables (w : World) (key q : string).

(** X5: [fetchGoogleBooks] never throws, whatever the endpoint answers:
    it sends exactly one GET, at the offset asked for, leaves the table
    alone, and returns items only when the response is a success that
    carries them; every other answer gives the empty array. *)
Theorem fetchGoogleBooks_never_throws (startIndex : nat) (r : Run) :
  exists items new,
    fetchGoogleBooks w key q startIndex r =
      (Normal items, {| db := db r; events := events r ++ new |})
    /\ fetchOffsets new = [startIndex]
    /\ insertRequests new = []
    /\ (items <> [] -> google w q startIndex = RespOk (Some items))
    /\ (fetchFailure (google w q startIndex) <> None -> items = []).
Proof.
  exists (pageItems (google w q startIndex)), (fetchEvents w key q startIndex).
  split; [apply fetchGoogleBooks_run|].
  unfold fetchEvents.
  destruct (google w q startIndex) as [[items|]|status message|message];
    cbn; repeat split; congruence.
Qed.

Lemma fetchedItems_S (i n : nat) :
  fetchedItems w q i (S n) =
    pageItems (google w q (i * booksPerPage)) ++ fetchedItems w q (S i) n.
Proof. reflexivity. Qed.

(** The shape of every execution of the loop: [n] complete iterations,
    then one of the three ways to end. *)
Lemma fetchLoop_shape (remaining : nat) :
  forall (i : nat) (acc : list Book) (r : Run),
  exists n how,
    n <= remaining
    /\ snd (fetchLoop w key q remaining i acc r) =
         {| db := db r;
            events := events r ++ pagesEvents w key q i n ++ endEvents w key q (i + n) how |}
    /\ match how with
       | BudgetUsed =>
           n = remaining
           /\ exists bs, transformBookData (fetchedItems w q i n) = Normal bs
                /\ fst (fetchLoop w key q remaining i acc r) = Normal (acc ++ bs)
       | EmptyPage =>
           n < remaining
           /\ pageItems (google w q ((i + n) * booksPerPage)) = []
           /\ exists bs, transformBookData (fetchedItems w q i n) = Normal bs
                /\ fst (fetchLoop w key q remaining i acc r) = Normal (acc ++ bs)
       | NormalizerThrew e =>
           n < remaining
           /\ transformBookData (pageItems (google w q ((i + n) * booksPerPage))) = Throw e
           /\ fst (fetchLoop w key q remaining i acc r) = Throw e
       end.
Proof.
  induction remaining as [|remaining IH]; intros i acc r.
  - exists 0, BudgetUsed. cbn [fetchLoop snd fst pagesEvents endEvents app].
    split; [lia | split; [now rewrite run_eta|]].
    split; [reflexivity|]. exists []. now rewrite app_nil_r.
  - rewrite fetchLoop_S. cbv zeta.
    destruct (pageItems (google w q (i * booksPerPage))) as [|item items] eqn:Hpage.
    + exists 0, EmptyPage. cbn [length Nat.eqb snd fst pagesEvents endEvents app].
      rewrite Nat.add_0_r, <- app_assoc.
      split; [lia | split; [reflexivity|]].
      split; [lia | split; [assumption|]]. exists []. now rewrite app_nil_r.
    + cbn [length Nat.eqb].
      destruct (transformBookData (item :: items)) as [bs1|e] eqn:Hbs1.
      * destruct (IH (S i) (acc ++ bs1)
                    {| db := db r;
                       events := (events r ++ iterEvents w key q i) ++ [SetTimeout 1000] |})
          as (n & how & Hn & Hsnd & Hhow).
        exists (S n), how. split; [lia|]. split.
        -- rewrite Hsnd. cbn [db events pagesEvents].
           now rewrite <- !app_assoc, Nat.add_succ_r.
        -- assert (Hjoin : forall bs, transformBookData (fetchedItems w q (S i) n) = Normal bs ->
                     transformBookData (fetchedItems w q i (S n)) = Normal (bs1 ++ bs)).
           { intros bs Hbs. rewrite fetchedItems_S, Hpage, transformBookData_app_eq.
             now rewrite Hbs1, Hbs. }
           rewrite Nat.add_succ_r.
           destruct how as [| |e]; destruct Hhow as [Hlt Hrest].
           ++ split; [lia|]. destruct Hrest as (bs & Hbs & Hfst).
              exists (bs1 ++ bs). split; [now apply Hjoin|]. now rewrite Hfst, app_assoc.
           ++ split; [lia|]. destruct Hrest as (Hempty & bs & Hbs & Hfst).
              split; [assumption|].
              exists (bs1 ++ bs). split; [now apply Hjoin|]. now rewrite Hfst, app_assoc.
           ++ split; [lia | assumption].
      * exists 0, (NormalizerThrew e). cbn [snd fst pagesEvents endEvents app].
        rewrite Nat.add_0_r, Hpage. split; [lia | split; [reflexivity|]].
        split; [lia | split; [assumption | reflexivity]].
Qed.

Lemma insertAccumulated_trace (bs : list Book) (r : Run) :
  insertAccumulated w bs r =
    (Normal tt,
     {| db := insertedStore w (db r) bs;
        events := events r ++ insertEvents w (db r) bs |}).
Proof. rewrite insertAccumulated_run. now destruct bs. Qed.

(** The shape of every run of [main] that starts with no event. *)
Lemma mainWith_trace (total : nat) (st : Store) :
  exists n how,
    let loop := [ConsoleLog (MsgStarting total q)] ++
                pagesEvents w key q 0 n ++ endEvents w key q n how in
    n <= ceilDiv total booksPerPage
    /\ match how with
       | BudgetUsed =>
           n = ceilDiv total booksPerPage
           /\ exists bs, transformBookData (fetchedItems w q 0 n) = Normal bs
                /\ mainWith w key q total (emptyRun st) =
                     (Normal tt, {| db := insertedStore w st bs;
                                    events := loop ++ insertEvents w st bs |})
       | EmptyPage =>
           n < ceilDiv total booksPerPage
           /\ pageItems (google w q (n * booksPerPage)) = []
           /\ exists bs, transformBookData (fetchedItems w q 0 n) = Normal bs
                /\ mainWith w key q total (emptyRun st) =
                     (Normal tt, {| db := insertedStore w st bs;
                                    events := loop ++ insertEvents w st bs |})
       | NormalizerThrew e =>
           n < ceilDiv total booksPerPage
           /\ transformBookData (pageItems (google w q (n * booksPerPage))) = Throw e
           /\ mainWith w key q total (emptyRun st) = (Throw e, {| db := st; events := loop |})
       end.
Proof.
  rewrite mainWith_run.
  destruct (fetchLoop_shape (ceilDiv total booksPerPage) 0 []
              {| db := db (emptyRun st);
                 events := events (emptyRun st) ++ [ConsoleLog (MsgStarting total q)] |})
    as (n & how & Hn & Hsnd & Hhow).
  exists n, how. cbv zeta. split; [assumption|].
  destruct (fetchLoop w key q (ceilDiv total booksPerPage) 0 [] _) as [c r'] eqn:Hloop.
  cbn [fst snd db events Nat.add emptyRun app] in *. subst r'.
  destruct how as [| |e]; destruct Hhow as [Hlt Hrest].
  - split; [assumption|]. destruct Hrest as (bs & Hbs & ->). exists bs.
    split; [assumption|]. rewrite insertAccumulated_trace. reflexivity.
  - split; [assumption|]. destruct Hrest as (Hempty & bs & Hbs & ->).
    split; [assumption|]. exists bs.
    split; [assumption|]. rewrite insertAccumulated_trace. reflexivity.
  - split; [assumption|]. destruct Hrest as (Hthrow & ->). now split.
Qed.

(** ** Observations on the events of a whole run *)

Lemma fetchOffsets_endEvents (i : nat) (how : LoopEnd) :
  fetchOffsets (endEvents w key q i how) =
    match how with
    | BudgetUsed => []
    | _ => [i * booksPerPage]
    end.
Proof.
  destruct how; cbn [endEvents]; [reflexivity | | apply fetchOffsets_iterEvents].
  rewrite fetchOffsets_app, fetchOffsets_iterEvents. reflexivity.
Qed.

Lemma insertRequests_endEvents (i : nat) (how : LoopEnd) :
  insertRequests (endEvents w key q i how) = [].
Proof.
  destruct how; cbn [endEvents]; [reflexivity | | apply insertRequests_iterEvents].
  rewrite insertRequests_app, insertRequests_iterEvents. reflexivity.
Qed.

Lemma fetchOffsets_loopEvents (total n : nat) (how : LoopEnd) :
  fetchOffsets (loopEvents w key q total n how) =
    map (fun j => j * booksPerPage)
        (seq 0 (match how with BudgetUsed => n | _ => S n end)).
Proof.
  unfold loopEvents.
  rewrite !fetchOffsets_app, fetchOffsets_pagesEvents, fetchOffsets_endEvents.
  cbn [fetchOffsets omap app].
  destruct how; rewrite ?app_nil_r; [reflexivity | |]; now rewrite seq_S, map_app.
Qed.

Lemma insertRequests_loopEvents (total n : nat) (how : LoopEnd) :
  insertRequests (loopEvents w key q total n how) = [].
Proof.
  unfold loopEvents.
  now rewrite !insertRequests_app, insertRequests_pagesEvents, insertRequests_endEvents.
Qed.

Lemma fetchOffsets_insertEvents (st : Store) (bs : list Book) :
  fetchOffsets (insertEvents w st bs) = [].
Proof.
  destruct bs as [|b bs]; [reflexivity|]. cbn [insertEvents].
  now destruct (fst (supabase_insert w st "books" (b :: bs) insertOptions)).
Qed.

Lemma insertRequests_insertEvents (st : Store) (bs : list Book) :
  insertRequests (insertEvents w st bs) =
    match bs with
    | [] => []
    | _ :: _ => [("books", bs, insertOptions)]
    end.
Proof.
  destruct bs as [|b bs]; [reflexivity|]. cbn [insertEvents].
  now destruct (fst (supabase_insert w st "books" (b :: bs) insertOptions)).
Qed.

Lemma fetchedItems_snoc (i n : nat) :
  fetchedItems w q i (S n) =
    fetchedItems w q i n ++ pageItems (google w q ((i + n) * booksPerPage)).
Proof.
  unfold fetchedItems. rewrite seq_S, flat_map_app. cbn [flat_map].
  now rewrite app_nil_r.
Qed.

(** Case analysis on the shape of a run: [tac] runs on each of the three
    ways the loop can end, with the equation of the run rewritten. *)
Ltac by_run_shape total st :=
  let n := fresh "n" in
  let how := fresh "how" in
  let Hn := fresh "Hn" in
  let Hhow := fresh "Hhow" in
  let e := fresh "e" in
  let bs := fresh "bs" in
  let Hbs := fresh "Hbs" in
  let Hrun := fresh "Hrun" in
  let Hlt := fresh "Hlt" in
  let Hpage := fresh "Hpage" in
  destruct (mainWith_trace total st) as (n & how & Hn & Hhow);
  cbv zeta in Hhow;
  fold (loopEvents w key q total n how) in Hhow;
  destruct how as [| |e];
  [ destruct Hhow as (Hlt & bs & Hbs & Hrun)
  | destruct Hhow as (Hlt & Hpage & bs & Hbs & Hrun)
  | destruct Hhow as (Hlt & Hpage & Hrun) ];
  rewrite Hrun; cbn [fst snd db events].

(** X6: in every run, whatever the endpoint answers, the GET requests are
    those of the offsets 0, 40, 80, ... in this order, and there are no
    more of them than [Math.ceil(target / 40)]. *)
Theorem fetches_within_page_budget (total : nat) (st : Store) :
  exists m,
    m <= ceilDiv total booksPerPage
    /\ fetchOffsets (events (snd (mainWith w key q total (emptyRun st)))) =
         map (fun j => j * booksPerPage) (seq 0 m).
Proof.
  by_run_shape total st.
  - exists n. split; [lia|].
    now rewrite fetchOffsets_app, fetchOffsets_loopEvents, fetchOffsets_insertEvents, app_nil_r.
  - exists (S n). split; [lia|].
    now rewrite fetchOffsets_app, fetchOffsets_loopEvents, fetchOffsets_insertEvents, app_nil_r.
  - exists (S n). split; [lia|]. apply fetchOffsets_loopEvents.
Qed.

(** X7: every run sends at most one insert; the insert goes to the table
    [books] with [onConflict: 'isbn'], never carries an empty batch, and
    comes after the last GET request of the run. *)
Theorem at_most_one_insert_after_all_fetches (total : nat) (st : Store) :
  let evs := events (snd (mainWith w key q total (emptyRun st))) in
  insertRequests evs = []
  \/ exists rows before after,
       rows <> []
       /\ evs = before ++ SupabaseInsert "books" rows insertOptions :: after
       /\ insertRequests before = []
       /\ insertRequests after = []
       /\ fetchOffsets after = [].
Proof.
  cbv zeta.
  assert (Hcase : forall total n how bs,
            let evs := loopEvents w key q total n how ++ insertEvents w st bs in
            insertRequests evs = []
            \/ exists rows before after,
                 rows <> []
                 /\ evs = before ++ SupabaseInsert "books" rows insertOptions :: after
                 /\ insertRequests before = []
                 /\ insertRequests after = []
                 /\ fetchOffsets after = []).
  { intros total' n how bs. cbv zeta. destruct bs as [|b bs].
    - left. now rewrite insertRequests_app, insertRequests_loopEvents.
    - right. cbn [insertEvents].
      exists (b :: bs),
        (loopEvents w key q total' n how ++ [ConsoleLog (MsgFetched (length (b :: bs)))]).
      eexists. split; [discriminate|]. split.
      + rewrite <- app_assoc. cbn [app]. reflexivity.
      + rewrite insertRequests_app, insertRequests_loopEvents.
        now destruct (fst (supabase_insert w st "books" (b :: bs) insertOptions)). }
  by_run_shape total st.
  - apply Hcase.
  - apply Hcase.
  - left. apply insertRequests_loopEvents.
Qed.

Lemma rowsSubmitted_loop_insert (total n : nat) (how : LoopEnd) (st : Store) (bs : list Book) :
  rowsSubmitted (loopEvents w key q total n how ++ insertEvents w st bs) = bs.
Proof.
  unfold rowsSubmitted.
  rewrite insertRequests_app, insertRequests_loopEvents, insertRequests_insertEvents.
  destruct bs; cbn; [reflexivity | now rewrite app_nil_r].
Qed.

(** X8: in every run that completes, the rows handed to the store are the
    normalization, as one batch, of all the items of the pages fetched in
    the run, in the order fetched. *)
Theorem rows_are_normalized_fetched_items (total : nat) (st : Store) :
  let run := mainWith w key q total (emptyRun st) in
  fst run = Normal tt ->
  transformBookData (fetchedItems w q 0 (length (fetchOffsets (events (snd run)))))
    = Normal (rowsSubmitted (events (snd run))).
Proof.
  cbv zeta. by_run_shape total st; intros Hnormal; [| |discriminate].
  - rewrite rowsSubmitted_loop_insert.
    rewrite fetchOffsets_app, fetchOffsets_loopEvents, fetchOffsets_insertEvents, app_nil_r.
    now rewrite length_map, length_seq.
  - rewrite rowsSubmitted_loop_insert.
    rewrite fetchOffsets_app, fetchOffsets_loopEvents, fetchOffsets_insertEvents, app_nil_r.
    rewrite length_map, length_seq, fetchedItems_snoc. cbn [Nat.add].
    now rewrite Hpage, app_nil_r.
Qed.

(** X9: a run changes the table only through its insert: the table after
    the run is the table before it when no insert was sent, and otherwise
    what the backend made of the table before it and the rows sent. *)
Theorem table_changes_only_by_insert (total : nat) (st : Store) :
  let run := mainWith w key q total (emptyRun st) in
  db (snd run) =
    match insertRequests (events (snd run)) with
    | [] => st
    | (table, rows, opts) :: _ => snd (supabase_insert w st table rows opts)
    end.
Proof.
  cbv zeta. by_run_shape total st.
  - rewrite insertRequests_app, insertRequests_loopEvents, insertRequests_insertEvents.
    now destruct bs.
  - rewrite insertRequests_app, insertRequests_loopEvents, insertRequests_insertEvents.
    now destruct bs.
  - now rewrite insertRequests_loopEvents.
Qed.

(** X10: [main] throws only when the normalization of a fetched page
    throws, with that exception; the run has then sent no insert, and the
    records of the pages before are lost with it. *)
Theorem exception_means_nothing_written (total : nat) (st : Store) (e : JsError) :
  let run := mainWith w key q total (emptyRun st) in
  fst run = Throw e ->
  insertRequests (events (snd run)) = []
  /\ db (snd run) = st
  /\ exists n,
       n < ceilDiv total booksPerPage
       /\ transformBookData (pageItems (google w q (n * booksPerPage))) = Throw e
       /\ last (fetchOffsets (events (snd run))) = Some (n * booksPerPage).
Proof.
  cbv zeta. by_run_shape total st; intros Hthrow; try discriminate.
  injection Hthrow as ->.
  split; [apply insertRequests_loopEvents | split; [reflexivity|]].
  exists n. split; [assumption | split; [assumption|]].
  rewrite fetchOffsets_loopEvents, seq_S, map_app. cbn [map Nat.add].
  apply last_snoc.
Qed.


(** The scan does tell runs apart: two requests in a row fail it, also
    with a timer that is too short between them. *)
Example spacedFrom_rejects :
  spacedFrom false [HttpGet "q" 0 40 "k"; HttpGet "q" 40 40 "k"] = false
  /\ spacedFrom false [HttpGet "q" 0 40 "k"; SetTimeout 999; HttpGet "q" 40 40 "k"] = false
  /\ spacedFrom false [HttpGet "q" 0 40 "k"; SetTimeout 1000; HttpGet "q" 40 40 "k"] = true.
Proof. repeat split. Qed.

Lemma spacedFrom_no_get (evs : list Event) :
  fetchOffsets evs = [] -> forall waiting, spacedFrom waiting evs = true.
Proof.
  induction evs as [|ev evs IH]; intros Hget waiting; [reflexivity|].
  destruct ev; cbn [spacedFrom]; try (apply IH; exact Hget); [discriminate|].
  destruct (Nat.leb 1000 ms); apply IH; exact Hget.
Qed.

Lemma spacedFrom_iterEvents (i : nat) (rest : list Event) :
  spacedFrom false (iterEvents w key q i ++ rest) = spacedFrom true rest.
Proof.
  unfold iterEvents, fetchEvents.
  destruct (fetchFailure _); reflexivity.
Qed.

Lemma spacedFrom_pagesEvents (n : nat) : forall (i : nat) (rest : list Event),
  spacedFrom false (pagesEvents w key q i n ++ rest) = spacedFrom false rest.
Proof.
  induction n as [|n IH]; intros i rest; [reflexivity|].
  cbn [pagesEvents]. rewrite <- !app_assoc, spacedFrom_iterEvents.
  cbn [app spacedFrom Nat.leb]. apply IH.
Qed.

Lemma spacedFrom_loop (total n : nat) (how : LoopEnd) (rest : list Event) :
  fetchOffsets rest = [] ->
  spacedFrom false (loopEvents w key q total n how ++ rest) = true.
Proof.
  intros Hrest. unfold loopEvents. rewrite <- !app_assoc.
  cbn [app spacedFrom]. rewrite spacedFrom_pagesEvents.
  destruct how; cbn [endEvents].
  - now apply spacedFrom_no_get.
  - rewrite <- app_assoc, spacedFrom_iterEvents. now apply spacedFrom_no_get.
  - rewrite spacedFrom_iterEvents. now apply spacedFrom_no_get.
Qed.

(** X11: in every run, a timer of one second is set between any GET
    request and the next one: the requests are never sent back to back. *)
Theorem fetches_are_spaced (total : nat) (st : Store) :
  spacedFrom false (events (snd (mainWith w key q total (emptyRun st)))) = true.
Proof.
  by_run_shape total st.
  - apply spacedFrom_loop, fetchOffsets_insertEvents.
  - apply spacedFrom_loop, fetchOffsets_insertEvents.
  - rewrite <- (app_nil_r (loopEvents _ _ _ _ _ _)). now apply spacedFrom_loop.
Qed.

Lemma successCounts_app (a b : list Event) :
  successCounts (a ++ b) = successCounts a ++ successCounts b.
Proof. apply omap_app. Qed.

Lemma insertErrors_app (a b : list Event) :
  insertErrors (a ++ b) = insertErrors a ++ insertErrors b.
Proof. apply omap_app. Qed.

Lemma no_outcome_in_iterEvents (i : nat) :
  successCounts (iterEvents w key q i) = [] /\ insertErrors (iterEvents w key q i) = [].
Proof.
  unfold iterEvents, fetchEvents. now destruct (fetchFailure _).
Qed.

Lemma no_outcome_in_pagesEvents (n : nat) : forall i,
  successCounts (pagesEvents w key q i n) = [] /\ insertErrors (pagesEvents w key q i n) = [].
Proof.
  induction n as [|n IH]; intros i; [now split|].
  cbn [pagesEvents]. destruct (IH (S i)) as [Hs He].
  destruct (no_outcome_in_iterEvents i) as [Hsi Hei].
  now rewrite !successCounts_app, !insertErrors_app, Hs, He, Hsi, Hei.
Qed.

Lemma no_outcome_in_loopEvents (total n : nat) (how : LoopEnd) :
  successCounts (loopEvents w key q total n how) = []
  /\ insertErrors (loopEvents w key q total n how) = [].
Proof.
  unfold loopEvents.
  destruct (no_outcome_in_pagesEvents n 0) as [Hs He].
  destruct (no_outcome_in_iterEvents n) as [Hsi Hei].
  rewrite !successCounts_app, !insertErrors_app, Hs, He.
  destruct how; cbn [endEvents]; rewrite ?successCounts_app, ?insertErrors_app, ?Hsi, ?Hei;
    now split.
Qed.

(** X12: the messages of a run tell the outcome of its write as the
    backend gave it: one success message, with the size of the batch,
    when the insert was sent and the backend reported no error; one error
    message, with the backend's text, when it reported one; neither when
    no insert was sent. *)
Theorem outcome_messages_follow_backend (total : nat) (st : Store) :
  let evs := events (snd (mainWith w key q total (emptyRun st))) in
  (successCounts evs, insertErrors evs) =
    match insertRequests evs with
    | [] => ([], [])
    | (table, rows, opts) :: _ =>
        match fst (supabase_insert w st table rows opts) with
        | None => ([length rows], [])
        | Some message => ([], [message])
        end
    end.
Proof.
  cbv zeta.
  assert (Hcase : forall total n how bs,
            let evs := loopEvents w key q total n how ++ insertEvents w st bs in
            (successCounts evs, insertErrors evs) =
              match insertRequests evs with
              | [] => ([], [])
              | (table, rows, opts) :: _ =>
                  match fst (supabase_insert w st table rows opts) with
                  | None => ([length rows], [])
                  | Some message => ([], [message])
                  end
              end).
  { intros total' n how bs. cbv zeta.
    destruct (no_outcome_in_loopEvents total' n how) as [Hs He].
    rewrite successCounts_app, insertErrors_app, Hs, He.
    rewrite insertRequests_app, insertRequests_loopEvents, insertRequests_insertEvents.
    destruct bs as [|b bs]; [reflexivity|]. cbn [app insertEvents].
    now destruct (fst (supabase_insert w st "books" (b :: bs) insertOptions)). }
  by_run_shape total st.
  - apply Hcase.
  - apply Hcase.
  - destruct (no_outcome_in_loopEvents total n (NormalizerThrew e)) as [Hs He].
    now rewrite Hs, He, insertRequests_loopEvents.
Qed.

End Runs.

Lemma rows_are_normalized_fetched_items_witness :
  let run := mainWith world_one_page "api-key" "best seller" 200 (emptyRun ∅) in
  transformBookData
    (fetchedItems world_one_page "best seller" 0 (length (fetchOffsets (events (snd run)))))
    = Normal (rowsSubmitted (events (snd run))).
Proof.
  apply (rows_are_normalized_fetched_items world_one_page "api-key" "best seller" 200 ∅).
  reflexivity.
Defined.

Lemma exception_means_nothing_written_witness :
  let run := mainWith world_empty_categories "api-key" "best seller" 200 (emptyRun ∅) in
  insertRequests (events (snd run)) = []
  /\ db (snd run) = ∅
  /\ exists n,
       n < ceilDiv 200 booksPerPage
       /\ transformBookData (pageItems (google world_empty_categories "best seller"
                                          (n * booksPerPage)))
            = Throw (TypeError "toLowerCase")
       /\ last (fetchOffsets (events (snd run))) = Some (n * booksPerPage).
Proof.
  apply (exception_means_nothing_written world_empty_categories "api-key" "best seller"
           200 ∅ (TypeError "toLowerCase")).
  reflexivity.
Defined.

(** * Properties of the catalog page *)

Section Pagination.

Local Open Scope Z_scope.

Lemma totalPages_spec (totalCount : Z) :
  12 * (totalPages totalCount - 1) < totalCount <= 12 * totalPages totalCount.
Proof.
  unfold totalPages, ceilDivZ.
  pose proof (Z.div_mod (- totalCount) 12 ltac:(lia)).
  pose proof (Z.mod_pos_bound (- totalCount) 12 ltac:(lia)).
  lia.
Qed.

Lemma pageButton_in_bar (page pages i : Z) :
  1 < pages -> 0 <= i < Z.min 5 pages ->
  pageButton page pages i = Some (firstButton page pages + i)
  /\ 1 <= firstButton page pages
  /\ firstButton page pages + Z.min 5 pages - 1 <= pages.
Proof.
  intros Hpages Hi. unfold pageButton, pageNum, firstButton.
  destruct (Z.leb_spec pages 5);
    [|destruct (Z.leb_spec page 3);
      [|destruct (Z.geb_spec page (pages - 2))]];
    cbv zeta;
    match goal with
    | |- context [(?n <? 1) || (?n >? pages)] =>
        destruct (Z.ltb_spec n 1); [lia|];
        destruct (Z.gtb_spec n pages); [lia|]
    end;
    cbn [orb]; (split; [f_equal; lia | lia]).
Qed.

(** X13: whenever the pagination bar is shown (more than one page), its
    buttons are consecutive page numbers, as many as there are pages up to
    five, all between 1 and the last page; the [null] of the callback is
    never produced, whatever the current page. *)
Theorem pagination_bar_is_a_window (page pages : Z) :
  1 < pages ->
  exists first,
    1 <= first
    /\ first + Z.min 5 pages - 1 <= pages
    /\ pageButtons page pages = map Some (seqZ first (Z.min 5 pages)).
Proof.
  intros Hpages. exists (firstButton page pages).
  destruct (pageButton_in_bar page pages 0 Hpages ltac:(lia)) as (_ & Hfirst & Hlast).
  split; [assumption | split; [assumption|]].
  unfold pageButtons.
  replace (seqZ (firstButton page pages) (Z.min 5 pages))
    with (map (Z.add (firstButton page pages)) (seqZ 0 (Z.min 5 pages))).
  2:{ change (Z.add (firstButton page pages) <$> seqZ 0 (Z.min 5 pages) =
              seqZ (firstButton page pages) (Z.min 5 pages)).
      now rewrite fmap_add_seqZ, Z.add_0_r. }
  rewrite map_map. apply map_ext_in. intros i Hi.
  apply list_elem_of_In, elem_of_seqZ in Hi.
  apply pageButton_in_bar; lia.
Qed.

Lemma pagination_bar_is_a_window_witness :
  exists first,
    1 <= first
    /\ first + Z.min 5 9 - 1 <= 9
    /\ pageButtons 8 9 = map Some (seqZ first (Z.min 5 9)).
Proof. apply (pagination_bar_is_a_window 8 9). lia. Defined.

(** X14: whenever the current page is one of the pages, the pagination
    bar holds its button. *)
Theorem current_page_is_in_the_bar (page pages : Z) :
  1 < pages -> 1 <= page <= pages ->
  In (Some page) (pageButtons page pages).
Proof.
  intros Hpages Hpage. unfold pageButtons.
  apply in_map_iff. exists (page - firstButton page pages).
  assert (Hi : 0 <= page - firstButton page pages < Z.min 5 pages).
  { unfold firstButton.
    destruct (Z.leb_spec pages 5);
      [|destruct (Z.leb_spec page 3);
        [|destruct (Z.geb_spec page (pages - 2))]]; lia. }
  split.
  - destruct (pageButton_in_bar page pages _ Hpages Hi) as (-> & _). f_equal. lia.
  - apply list_elem_of_In, elem_of_seqZ. lia.
Qed.

Lemma current_page_is_in_the_bar_witness : In (Some 8) (pageButtons 8 9).
Proof. apply (current_page_is_in_the_bar 8 9); lia. Defined.

(** X15: from a page among the pages, Previous and Next lead to a page
    among the pages; each undoes the other wherever the other moves; and
    each is disabled exactly where it would not move. *)
Theorem previous_and_next (page pages : Z) :
  1 <= page <= pages ->
  1 <= previousPage page <= pages
  /\ 1 <= nextPage page pages <= pages
  /\ (page < pages -> previousPage (nextPage page pages) = page)
  /\ (1 < page -> nextPage (previousPage page) pages = page)
  /\ (previousDisabled page = true <-> previousPage page = page)
  /\ (nextDisabled page pages = true <-> nextPage page pages = page).
Proof.
  intros Hpage. unfold previousPage, nextPage, previousDisabled, nextDisabled.
  rewrite !Z.eqb_eq. lia.
Qed.

Lemma previous_and_next_witness :
  1 <= previousPage 3 <= 7
  /\ 1 <= nextPage 3 7 <= 7
  /\ (3 < 7 -> previousPage (nextPage 3 7) = 3)
  /\ (1 < 3 -> nextPage (previousPage 3) 7 = 3)
  /\ (previousDisabled 3 = true <-> previousPage 3 = 3)
  /\ (nextDisabled 3 7 = true <-> nextPage 3 7 = 3).
Proof. apply (previous_and_next 3 7). lia. Defined.

(** X16: on every page among the pages of a non-empty result, the line
    [Showing a-b of n] names the rows the hook asked for with [range],
    counted from 1 and cut at the total: [a] is the first row asked for,
    [b] the last one asked for or the last row there is; [a <= b]; every
    page but the last shows 12 rows, and the last page ends at the total. *)
Theorem showing_matches_requested_range (page totalCount : Z) :
  0 < totalCount -> 1 <= page <= totalPages totalCount ->
  exists a b,
    showing page totalCount = Some (a, b)
    /\ a = fst (range page 12) + 1
    /\ b = Z.min (snd (range page 12) + 1) totalCount
    /\ a <= b <= totalCount
    /\ (page < totalPages totalCount -> b = a + 11)
    /\ (page = totalPages totalCount -> b = totalCount).
Proof.
  intros Hcount Hpage. pose proof (totalPages_spec totalCount) as Hpages.
  unfold showing. destruct (Z.gtb_spec totalCount 0); [|lia].
  eexists _, _. split; [reflexivity|]. cbn [range fst snd]. lia.
Qed.

Lemma showing_matches_requested_range_witness :
  exists a b,
    showing 3 30 = Some (a, b)
    /\ a = fst (range 3 12) + 1
    /\ b = Z.min (snd (range 3 12) + 1) 30
    /\ a <= b <= 30
    /\ (3 < totalPages 30 -> b = a + 11)
    /\ (3 = totalPages 30 -> b = 30).
Proof.
  apply (showing_matches_requested_range 3 30); [lia | vm_compute; split; discriminate].
Defined.

End Pagination.

Section GenreFilter.

Lemma paramsGet_delete (name k : string) (params : URLSearchParams) :
  paramsGet k (paramsDelete name params) =
    if String.eqb name k then None else paramsGet k params.
Proof.
  induction params as [|[k' v] params IH]; cbn [paramsDelete List.filter paramsGet fst].
  - now destruct (String.eqb name k).
  - fold (paramsDelete name params).
    destruct (String.eqb_spec k' name) as [->|Hne]; cbn [negb].
    + rewrite IH. destruct (String.eqb_spec name k); reflexivity.
    + cbn [paramsGet]. rewrite IH.
      destruct (String.eqb_spec k' k) as [->|Hk].
      * destruct (String.eqb_spec name k); [congruence | reflexivity].
      * reflexivity.
Qed.

Lemma paramsGet_set (name value k : string) (params : URLSearchParams) :
  paramsGet k (paramsSet name value params) =
    if String.eqb name k then Some value else paramsGet k params.
Proof.
  induction params as [|[k' v] params IH]; cbn [paramsSet paramsGet].
  - reflexivity.
  - destruct (String.eqb_spec k' name) as [->|Hne]; cbn [paramsGet].
    + destruct (String.eqb_spec name k); [reflexivity|].
      rewrite paramsGet_delete. now destruct (String.eqb_spec name k).
    + rewrite IH. destruct (String.eqb_spec k' k) as [->|Hk].
      * destruct (String.eqb_spec name k); [congruence | reflexivity].
      * reflexivity.
Qed.

(** X17: a change of genre rewrites the [genre] parameter of the query
    string and nothing else: the parameter takes the chosen genre, or goes
    when the choice is 'all'; every other parameter, the search text among
    them, keeps its value; and the page goes back to 1. *)
Theorem genre_change_rewrites_only_genre (genre : string) (s : BooksState) :
  let s' := handleGenreChange genre s in
  paramsGet "genre" (searchParams s') = (if String.eqb genre "all" then None else Some genre)
  /\ (forall k, k <> "genre" ->
        paramsGet k (searchParams s') = paramsGet k (searchParams s))
  /\ searchTerm s' = searchTerm s
  /\ page s' = 1%Z.
Proof.
  cbv zeta. unfold handleGenreChange, searchTerm. cbn [searchParams page].
  destruct (String.eqb genre "all").
  - rewrite !paramsGet_delete. cbn. repeat split.
    intros k Hk. rewrite paramsGet_delete.
    destruct (String.eqb_spec "genre" k); congruence.
  - rewrite !paramsGet_set. cbn. repeat split.
    intros k Hk. rewrite paramsGet_set.
    destruct (String.eqb_spec "genre" k); congruence.
Qed.

Lemma handleGenreChange_genre_param (genre : string) (s : BooksState) :
  paramsGet "genre" (searchParams (handleGenreChange genre s)) =
    if String.eqb genre "all" then None else Some genre.
Proof.
  unfold handleGenreChange. cbn [searchParams].
  destruct (String.eqb genre "all");
    [rewrite paramsGet_delete | rewrite paramsGet_set]; reflexivity.
Qed.

(** X18: the query string written by a change of genre gives the chosen
    genre back, to the effect that follows the change and to a fresh load
    of the page alike; the one exception is the empty genre, which both
    read back as 'all'. *)
Theorem chosen_genre_survives_the_url (genre : string) (s : BooksState) :
  let s' := handleGenreChange genre s in
  let back := if String.eqb genre "" then "all" else genre in
  selectedGenre (genreEffect s') = back
  /\ selectedGenre (initialBooksState (searchParams s')) = back.
Proof.
  cbv zeta. unfold genreEffect, initialBooksState. cbn [selectedGenre].
  rewrite handleGenreChange_genre_param.
  destruct (String.eqb_spec genre "all") as [->|Hall]; [now split|].
  cbn [truthy orElse from_option id].
  destruct (String.eqb genre ""); now split.
Qed.

End GenreFilter.
